(** * IdeaForge / HealQ: the "Dr. Aisha" chat responder and its session state

    A shallow embedding of [services/ChatService.ts] (the keyword-lookup
    responder [ChatService.sendMessage]) and of the [useMedicalChat] hook of
    [DoctorBotPage.tsx] (message list, loading flag, error), together with
    the handlers of the components around the hook ([ChatInput],
    [ChatMessage], [DoctorBotPage]) as a transition system over page events.

    Conventions of the embedding:
    - a JavaScript string is a [string], the bytes of its UTF-8 encoding
      (well-formed text occurs in well-formed text in UTF-8 exactly when it
      does in UTF-16); [s.includes(t)] is [includes s t];
    - [String.prototype.toLowerCase] is a parameter of the development
      (JavaScript lower-cases by the Unicode tables); every statement holds
      for any such function, and [toLowerCase_ascii] instantiates it to run
      the model on concrete inputs;
    - [String.prototype.trim] is a parameter in the same way, with
      [trim_ascii] as its instance;
    - [MOCK_HOSPITALS] (declared in [constants.ts]) is a parameter: the
      directory is any list of hospitals;
    - a promise is its settlement ([Fulfilled] or [Rejected]) together with
      the milliseconds of timers awaited on the way;
    - module [Js] reads the responder once more over JavaScript values of
      any kind, where a property read or a method call can throw and a throw
      rejects the promise; it agrees with the typed responder on directories
      that are typed as [types.ts] declares;
    - the handlers of the page read what the last render captured and write
      the current state; a render is an event of its own. *)

From Stdlib Require Import String Ascii List Bool Arith ZArith Lia.
From ExtLib Require Import Structures.Monad.
Import ListNotations.
Import MonadNotation.
Local Open Scope string_scope.
Local Open Scope list_scope.
Local Open Scope monad_scope.

Set Implicit Arguments.

(** ** Strings *)

Module JsString.

(** [s.includes(sub)]: [sub] occurs in [s] at some position. *)
Fixpoint includes (s sub : string) : bool :=
  if prefix sub s then true
  else match s with
       | EmptyString => false
       | String _ s' => includes s' sub
       end.

(** The substring relation [includes] decides. *)
Definition substring_of (sub s : string) : Prop :=
  exists before after, s = (before ++ sub ++ after)%string.

(** ASCII instance of [toLowerCase]: A-Z go to a-z, the rest is kept. *)
Definition lower_ascii (c : ascii) : ascii :=
  let n := nat_of_ascii c in
  if ((65 <=? n) && (n <=? 90))%nat then ascii_of_nat (n + 32) else c.

Fixpoint toLowerCase_ascii (s : string) : string :=
  match s with
  | EmptyString => EmptyString
  | String c s' => String (lower_ascii c) (toLowerCase_ascii s')
  end.

(** The line feed of a template literal's [\n]. *)
Definition LF : string := String (ascii_of_nat 10) EmptyString.

(** JavaScript truthiness of a string: the empty string is falsy. *)
Definition truthy (s : string) : bool :=
  match s with
  | EmptyString => false
  | String _ _ => true
  end.

End JsString.
Import JsString.

(** ** Data model ([types.ts], as far as the responder reads it) *)

Inductive HospitalType := Government | Private.

Record Department (Doctor : Type) := mkDepartment {
  dept_name : string;
  doctors : list Doctor
}.

Record Hospital (Doctor : Type) := mkHospital {
  name : string;
  location : string;
  state : string;
  type : HospitalType;
  opdTimings : string;
  departments : list (Department Doctor)
}.

Inductive Action := BOOKING_REDIRECT | AMBULANCE_DISPATCH.

(** [ChatResponse]: the three optional fields are [None] when absent. *)
Record ChatResponse (Doctor : Type) := mkChatResponse {
  text : string;
  suggestedHospitals : option (list (Hospital Doctor));
  suggestedDoctors : option (list Doctor);
  action : option Action
}.

(** ** Promises *)

(** What a [catch] clause receives: an [Error] object with its message, or
    any other thrown value. *)
Inductive Thrown := ErrorObject (message : string) | OtherValue.

Inductive Settled (A : Type) :=
| Fulfilled (a : A)
| Rejected (e : Thrown).
Arguments Rejected {A} e.

Record Promise (A : Type) := mkPromise {
  waited : nat;
  settled : Settled A
}.

Definition resolve {A} (a : A) : Promise A := mkPromise 0 (Fulfilled a).

Definition reject {A} (e : Thrown) : Promise A := mkPromise 0 (Rejected e).

(** [await p] followed by the rest of an async function body. *)
Definition await {A B} (p : Promise A) (k : A -> Promise B) : Promise B :=
  match settled p with
  | Fulfilled a => let q := k a in mkPromise (waited p + waited q) (settled q)
  | Rejected e => mkPromise (waited p) (Rejected e)
  end.

#[export] Instance Monad_Promise : Monad Promise :=
  {| ret := @resolve; bind := @await |}.

(** [new Promise(resolve => setTimeout(resolve, ms))] *)
Definition setTimeout_promise (ms : nat) : Promise unit :=
  mkPromise ms (Fulfilled tt).

(** ** services/ChatService.ts *)

(** [SYMPTOM_MAP], as [Object.entries] enumerates it: no key is an array
    index, so the entries come in declaration order. *)
Definition SYMPTOM_MAP : list (string * string) :=
  [ ("heart", "Cardiology");
    ("chest pain", "Cardiology");
    ("breath", "Pulmonology");
    ("cough", "Pulmonology");
    ("skin", "Dermatology");
    ("rash", "Dermatology");
    ("acne", "Dermatology");
    ("stomach", "Gastroenterology");
    ("digest", "Gastroenterology");
    ("bone", "Orthopedics");
    ("fracture", "Orthopedics");
    ("joint", "Orthopedics");
    ("nerv", "Neurology");
    ("brain", "Neurology");
    ("kidney", "Nephrology");
    ("urinary", "Urology");
    ("child", "Pediatrics");
    ("baby", "Pediatrics");
    ("eye", "Ophthalmology");
    ("vision", "Ophthalmology");
    ("lady", "Gynecology");
    ("woman", "Gynecology");
    ("pregnant", "Obstetrics");
    ("cancer", "Oncology");
    ("sugar", "Endocrinology");
    ("diabetes", "Endocrinology");
    ("ent", "ENT");
    ("ear", "ENT");
    ("nose", "ENT");
    ("throat", "ENT");
    ("fever", "General Medicine");
    ("cold", "General Medicine");
    ("flu", "General Medicine");
    ("headache", "General Medicine") ].

(** The keywords of the emergency test, in the order of the [||] chain. *)
Definition EMERGENCY_KEYWORDS : list string :=
  [ "emergency"; "accident"; "ambulance"; "bleeding" ].

Definition EMERGENCY_TEXT : string :=
  "This sounds like an emergency! 🚨 I can help you dispatch an ambulance immediately. Please go to the Ambulance section or call 108.".

Definition FALLBACK_TEXT : string :=
  "I can help you find a doctor or book an appointment. Please tell me your symptoms and your location (e.g., 'Headache in Delhi').".

Definition found_text (detectedDept : string) (locationsInMsg : list string) : string :=
  ("I noticed you mentioned symptoms related to **" ++ detectedDept
   ++ "**. Here are some top specialists "
   ++ match locationsInMsg with
      | [] => "available"
      | loc0 :: _ => "near " ++ loc0
      end
   ++ " for you. " ++ LF ++ LF ++ "You can book a token directly:")%string.

Definition not_found_text (detectedDept : string) : string :=
  ("I understand you need a **" ++ detectedDept
   ++ "** specialist, but I couldn't find any hospitals matching your location criteria in our database. Try searching for a different city.")%string.

(** [new Set(xs)] then spread: the elements in first-insertion order. *)
Definition Set_add (s : list string) (x : string) : list string :=
  if existsb (String.eqb x) s then s else s ++ [x].

Definition Set_of (xs : list string) : list string :=
  fold_left Set_add xs [].

Module ChatService.

Section Responder.

Variable Doctor : Type.
Variable toLowerCase : string -> string.
Variable MOCK_HOSPITALS : list (Hospital Doctor).

(** The emergency test of step 1. *)
Definition isEmergency (lowerMsg : string) : bool :=
  includes lowerMsg "emergency" || includes lowerMsg "accident"
  || includes lowerMsg "ambulance" || includes lowerMsg "bleeding".

(** Step 2: the [for ... of Object.entries] loop with its [break]. *)
Fixpoint detectDept_loop (entries : list (string * string)) (lowerMsg : string)
  : option string :=
  match entries with
  | [] => None
  | (key, dept) :: rest =>
      if includes lowerMsg key then Some dept
      else detectDept_loop rest lowerMsg
  end.

Definition detectDept (lowerMsg : string) : option string :=
  detectDept_loop SYMPTOM_MAP lowerMsg.

(** Step 3. *)
Definition allLocations : list string :=
  Set_of (map (@state Doctor) MOCK_HOSPITALS ++ map (@location Doctor) MOCK_HOSPITALS).

Definition detectLocations (lowerMsg : string) : list string :=
  let locationsInMsg :=
    filter (fun loc => includes lowerMsg (toLowerCase loc)) allLocations in
  let locationsInMsg :=
    if includes lowerMsg "delhi" then locationsInMsg ++ ["Delhi"] else locationsInMsg in
  let locationsInMsg :=
    if includes lowerMsg "mumbai" then locationsInMsg ++ ["Maharashtra"] else locationsInMsg in
  let locationsInMsg :=
    if includes lowerMsg "bangalore" || includes lowerMsg "bengaluru"
    then locationsInMsg ++ ["Karnataka"] else locationsInMsg in
  locationsInMsg.

(** Step 4: the two filters. *)
Definition hasDept (detectedDept : string) (h : Hospital Doctor) : bool :=
  existsb (fun d => includes (toLowerCase (dept_name d)) (toLowerCase detectedDept))
          (departments h).

Definition inLocations (locationsInMsg : list string) (h : Hospital Doctor) : bool :=
  existsb (fun loc => includes (toLowerCase (state h)) (toLowerCase loc)
                      || includes (toLowerCase (location h)) (toLowerCase loc))
          locationsInMsg.

Definition relevantHospitals (detectedDept : string) (locationsInMsg : list string)
  : list (Hospital Doctor) :=
  let relevant := filter (hasDept detectedDept) MOCK_HOSPITALS in
  if (0 <? length locationsInMsg)%nat
  then filter (inLocations locationsInMsg) relevant
  else relevant.

(** The "Gather Doctors" pass: both [forEach] bodies are empty, so the
    accumulator comes back as it went in. *)
Definition gatherDoctors (detectedDept : string) (relevant : list (Hospital Doctor))
  : list Doctor :=
  fold_left
    (fun suggested h =>
       match find (fun d => includes (toLowerCase (dept_name d)) (toLowerCase detectedDept))
                  (departments h) with
       | Some dept =>
           if (0 <? length (doctors dept))%nat
           then fold_left (fun acc _ => acc) (doctors dept) suggested
           else suggested
       | None => suggested
       end)
    relevant [].

Definition respond (message : string) : ChatResponse Doctor :=
  let lowerMsg := toLowerCase message in
  if isEmergency lowerMsg then
    mkChatResponse EMERGENCY_TEXT None None (Some AMBULANCE_DISPATCH)
  else
    let detectedDept := detectDept lowerMsg in
    let locationsInMsg := detectLocations lowerMsg in
    match detectedDept with
    | Some dept =>
        if truthy dept then
          let relevant := relevantHospitals dept locationsInMsg in
          let _suggestedDoctors := gatherDoctors dept relevant in
          let topHospitals := firstn 3 relevant in
          if (0 <? length topHospitals)%nat then
            mkChatResponse (found_text dept locationsInMsg) (Some topHospitals) None None
          else
            mkChatResponse (not_found_text dept) None None None
        else mkChatResponse FALLBACK_TEXT None None None
    | None => mkChatResponse FALLBACK_TEXT None None None
    end.

(** [ChatService.sendMessage(message, language = 'en')] *)
Definition sendMessage (message : string) (language : option string)
  : Promise (ChatResponse Doctor) :=
  let language := match language with Some l => l | None => "en" end in
  _ <- setTimeout_promise 800 ;;
  ret (respond message).

End Responder.

End ChatService.

(** ** DoctorBotPage.tsx: the [useMedicalChat] hook *)

Inductive Role := user | assistant.

Record Message (Doctor : Type) := mkMessage {
  role : Role;
  content : string;
  suggestions : option (list (Hospital Doctor))
}.

(** The three [useState] cells of the hook. *)
Record ChatState (Doctor : Type) := mkChatState {
  messages : list (Message Doctor);
  isLoading : bool;
  error : option string
}.

Definition GENERIC_ERROR : string := "Something went wrong. Please try again.".

Module useMedicalChat.

Section Hook.

Variable Doctor : Type.

Local Abbreviation State := (ChatState Doctor).

(** The initial values given to [useState]. *)
Definition initialState : State := mkChatState [] false None.

Definition setMessages (f : list (Message Doctor) -> list (Message Doctor)) (s : State)
  : State :=
  mkChatState (f (messages s)) (isLoading s) (error s).

Definition setIsLoading (b : bool) (s : State) : State :=
  mkChatState (messages s) b (error s).

Definition setError (e : option string) (s : State) : State :=
  mkChatState (messages s) (isLoading s) e.

(** [sendMessage] up to its [await]. *)
Definition sendMessage_begin (userMessage : string) (s : State) : State :=
  let userMsg := mkMessage user userMessage None in
  let s := setMessages (fun prev => prev ++ [userMsg]) s in
  let s := setIsLoading true s in
  setError None s.

(** [e instanceof Error ? e.message : '...'] *)
Definition errorMessage (e : Thrown) : string :=
  match e with
  | ErrorObject message => message
  | OtherValue => GENERIC_ERROR
  end.

(** [sendMessage] from the settlement of the awaited promise on: the rest
    of the [try] block or the [catch] clause, then [finally]. *)
Definition sendMessage_settle (outcome : Settled (ChatResponse Doctor)) (s : State)
  : State :=
  let s :=
    match outcome with
    | Fulfilled response =>
        setMessages
          (fun prev =>
             prev ++ [mkMessage assistant (text response) (suggestedHospitals response)])
          s
    | Rejected e => setError (Some (errorMessage e)) s
    end in
  setIsLoading false s.

Definition clearChat (s : State) : State := setMessages (fun _ => []) s.

Definition clearError (s : State) : State := setError None s.

(** What can happen to a session: a submission starts, the promise of a
    submission in flight settles, or one of the two clear operations. *)
Inductive Event :=
| Submit (userMessage : string)
| Settle (outcome : Settled (ChatResponse Doctor))
| ClearChat
| ClearError.

Definition step (s : State) (ev : Event) : State :=
  match ev with
  | Submit userMessage => sendMessage_begin userMessage s
  | Settle outcome => sendMessage_settle outcome s
  | ClearChat => clearChat s
  | ClearError => clearError s
  end.

Definition run (evs : list Event) (s : State) : State := fold_left step evs s.

(** A submission whose promise settles before anything else happens, for
    a responder [service]. *)
Variable service : string -> string -> Promise (ChatResponse Doctor).

Definition sendMessage (userMessage language : string) (s : State) : State :=
  let s := sendMessage_begin userMessage s in
  sendMessage_settle (settled (service userMessage language)) s.

End Hook.

End useMedicalChat.

(** The hook wired to the responder, as [DoctorBotPage.tsx] imports it. *)
Definition chatService (Doctor : Type) (toLowerCase : string -> string)
  (MOCK_HOSPITALS : list (Hospital Doctor)) (userMessage language : string)
  : Promise (ChatResponse Doctor) :=
  ChatService.sendMessage toLowerCase MOCK_HOSPITALS userMessage (Some language).

(** ** DoctorBotPage.tsx: the components around the hook *)

Module ChatMessage.

(** The hospital cards drawn under a message:
    [isDoctor && msg.suggestions && msg.suggestions.length > 0]. *)
Definition cards (Doctor : Type) (msg : Message Doctor) : list (Hospital Doctor) :=
  match role msg with
  | assistant =>
      match suggestions msg with
      | Some hospitals => if (0 <? length hospitals)%nat then hospitals else []
      | None => []
      end
  | user => []
  end.

End ChatMessage.

Module ChatInput.

Section Input.

(** [String.prototype.trim], a parameter like [toLowerCase]. *)
Variable trim : string -> string.

(** [handleSend], as a function of the [input] and [disabled] its closure
    holds: the argument [onSend] is called with, if it is called, and what
    the [input] cell holds afterwards when it held [input] before. *)
Definition handleSend (input : string) (disabled : bool) : option string * string :=
  if truthy (trim input) && negb disabled
  then (Some (trim input), "")
  else (None, input).

(** [e.key === 'Enter' && !e.shiftKey && (e.preventDefault(), handleSend())] *)
Definition onKeyDown (key : string) (shiftKey : bool) (input : string) (disabled : bool)
  : option string * string :=
  if (key =? "Enter")%string && negb shiftKey
  then handleSend input disabled
  else (None, input).

(** The [disabled] attribute of the send button. *)
Definition buttonDisabled (input : string) (disabled : bool) : bool :=
  disabled || negb (truthy (trim input)).

End Input.

End ChatInput.

(** The views [onNavigate] accepts. *)
Inductive View := LIST | BOOKING | LIVE_TRACKER | HISTORY | ADMIN | AMBULANCE | BOT.

(** What [handleBook] does to the outside: a call of the [onNavigate] prop,
    or a [CustomEvent] dispatched on [window] with [detail.hospital]. *)
Inductive Effect (Doctor : Type) :=
| CallOnNavigate (view : View) (data : Hospital Doctor)
| DispatchWindowEvent (eventType : string) (hospital : Hospital Doctor).

Module DoctorBotPage.

Section Page.

Variable Doctor : Type.
Variable trim : string -> string.
Variable service : string -> string -> Promise (ChatResponse Doctor).

(** What the handlers created by the last render read: [language] in
    [onSend], [input] in [handleSend] and in the send button's [disabled]
    attribute, [disabled={isLoading}], and [messages.length > 0], on which
    the Reset button is drawn. *)
Record Rendered := mkRendered {
  r_language : string;
  r_input : string;
  r_disabled : bool;
  r_hasMessages : bool
}.

(** The state cells of the page and of its children; [pending], the
    responder calls (message, language) whose promise has not settled; and
    what the last render captured. *)
Record PageState := mkPageState {
  language : string;
  chat : ChatState Doctor;
  input : string;
  pending : list (string * string);
  rendered : Rendered
}.

(** A render of the current state. *)
Definition render (p : PageState) : Rendered :=
  mkRendered (language p) (input p) (isLoading (chat p))
    (0 <? length (messages (chat p)))%nat.

(** The page after its first render. *)
Definition initialPage : PageState :=
  mkPageState "en" (useMedicalChat.initialState Doctor) "" []
    (mkRendered "en" "" false false).

(** [handleBook]; [onNavigate] tells whether the prop was passed. *)
Definition handleBook (onNavigate : bool) (hospital : Hospital Doctor) : Effect Doctor :=
  if onNavigate then CallOnNavigate BOOKING hospital
  else DispatchWindowEvent "navigate-to-booking" hospital.

(** The effect on the page of a [handleSend] whose closure is that of the
    last render: [onSend(mt)] runs [sendMessage(mt, language)] up to its
    [await], with the language captured, on the current chat state (the
    setters take updater functions or constants); then [setInput('')]. When
    nothing is sent no setter is called. *)
Definition applySend (sent : option string * string) (p : PageState) : PageState :=
  match fst sent with
  | Some mt =>
      mkPageState (language p) (useMedicalChat.sendMessage_begin mt (chat p)) (snd sent)
        (pending p ++ [(mt, r_language (rendered p))]) (rendered p)
  | None => p
  end.

Inductive PageEvent :=
| Change (value : string)
| KeyDown (key : string) (shiftKey : bool)
| ClickSend
| ClickReset
| SelectLanguage (code : string)
| PromiseSettles (i : nat)
| Render.

(** The handlers read what the last render captured and write the current
    state; a render may come after any event, and the [i]-th pending promise
    may settle at any time. Key presses are handled whether or not the
    browser would deliver them to a disabled textarea; the two buttons
    follow their [disabled] attribute and conditional rendering. *)
Definition step (p : PageState) (ev : PageEvent) : PageState :=
  match ev with
  | Change value => mkPageState (language p) (chat p) value (pending p) (rendered p)
  | KeyDown key shiftKey =>
      applySend
        (ChatInput.onKeyDown trim key shiftKey (r_input (rendered p))
           (r_disabled (rendered p))) p
  | ClickSend =>
      if ChatInput.buttonDisabled trim (r_input (rendered p)) (r_disabled (rendered p))
      then p
      else applySend
             (ChatInput.handleSend trim (r_input (rendered p)) (r_disabled (rendered p))) p
  | ClickReset =>
      if r_hasMessages (rendered p)
      then mkPageState (language p) (useMedicalChat.clearChat (chat p)) (input p)
             (pending p) (rendered p)
      else p
  | SelectLanguage code => mkPageState code (chat p) (input p) (pending p) (rendered p)
  | PromiseSettles i =>
      match nth_error (pending p) i with
      | Some (userMessage, lang) =>
          mkPageState (language p)
            (useMedicalChat.sendMessage_settle (settled (service userMessage lang)) (chat p))
            (input p)
            (firstn i (pending p) ++ skipn (S i) (pending p))
            (rendered p)
      | None => p
      end
  | Render => mkPageState (language p) (chat p) (input p) (pending p) (render p)
  end.

Definition run (evs : list PageEvent) (p : PageState) : PageState :=
  fold_left step evs p.

(** What a render of the state draws. *)
Definition showsWelcome (p : PageState) : bool :=
  (length (messages (chat p)) =? 0)%nat.

Definition showsTyping (p : PageState) : bool :=
  negb (showsWelcome p) && isLoading (chat p).

Definition showsReset (p : PageState) : bool :=
  (0 <? length (messages (chat p)))%nat.

(** [{error && <div>{error}</div>}] *)
Definition errorBanner (p : PageState) : option string :=
  match error (chat p) with
  | Some e => if truthy e then Some e else None
  | None => None
  end.

End Page.

End DoctorBotPage.

(** ** services/ChatService.ts on JavaScript values

    The same function body, read as the engine runs it: the arguments and
    the directory are values of any kind, every property read and method
    call can throw a TypeError, and a throw rejects the promise. Values are
    data (what a literal or JSON holds): no functions, getters or shared
    objects. *)

Module Js.

Local Unset Elimination Schemes.

Inductive Value :=
| Undefined
| Null
| Bool (b : bool)
| Num (n : Z)
| Str (s : string)
| Arr (items : list Value)
| Obj (props : list (string * Value)).

Local Set Elimination Schemes.

(** How a statement completes. *)
Inductive Completion (A : Type) :=
| Normal (a : A)
| Throw (e : Thrown).
Arguments Throw {A} e.

Definition andThen {A B} (c : Completion A) (k : A -> Completion B) : Completion B :=
  match c with
  | Normal a => k a
  | Throw e => Throw e
  end.

#[export] Instance Monad_Completion : Monad Completion :=
  {| ret := @Normal; bind := @andThen |}.

(** An async function body that throws rejects its promise. *)
Definition settle {A} (c : Completion A) : Promise A :=
  match c with
  | Normal a => resolve a
  | Throw e => reject e
  end.

(** What the responder returns: hospitals are the directory's own objects. *)
Record Reply := mkReply {
  reply_text : string;
  reply_hospitals : option (list Value);
  reply_doctors : option (list Value);
  reply_action : option Action
}.

(** The own property [key] of an object, one entry per key. *)
Definition lookup (key : string) (props : list (string * Value)) : Value :=
  match find (fun kv => String.eqb key (fst kv)) props with
  | Some kv => snd kv
  | None => Undefined
  end.

(** [new Set] compares by SameValueZero; two arrays or objects of the data
    are never the same object. *)
Definition sameValueZero (a b : Value) : bool :=
  match a, b with
  | Undefined, Undefined => true
  | Null, Null => true
  | Bool x, Bool y => Bool.eqb x y
  | Num x, Num y => Z.eqb x y
  | Str x, Str y => String.eqb x y
  | _, _ => false
  end.

Definition Set_add (s : list Value) (x : Value) : list Value :=
  if existsb (sameValueZero x) s then s else s ++ [x].

Definition Set_of (xs : list Value) : list Value := fold_left Set_add xs [].

(** Truthiness, for [dept && ...]. *)
Definition truthyValue (v : Value) : bool :=
  match v with
  | Undefined | Null => false
  | Bool b => b
  | Num n => negb (n =? 0)%Z
  | Str s => truthy s
  | Arr _ | Obj _ => true
  end.

(** The property names the responder reads from the directory. *)
Inductive Key := Kstate | Klocation | Kdepartments | Kname | Kdoctors.

Definition keyName (key : Key) : string :=
  match key with
  | Kstate => "state"
  | Klocation => "location"
  | Kdepartments => "departments"
  | Kname => "name"
  | Kdoctors => "doctors"
  end.

Section Engine.

Variable toLowerCase : string -> string.

(** [v > 0] for a value that is not known to be a number, by the engine's
    relational comparison. *)
Variable gtZero : Value -> bool.

(** The message of the TypeError thrown on reading or calling [member] of
    [v]; its wording is the engine's. *)
Variable typeErrorMessage : Value -> string -> string.

Definition TypeError (v : Value) (member : string) : Thrown :=
  ErrorObject (typeErrorMessage v member).

(** [v.key], for the keys the responder reads: undefined and null throw, an
    object gives its own property, and no string, number, boolean or array
    has a property of one of these names. *)
Definition getField (v : Value) (key : Key) : Completion Value :=
  match v with
  | Undefined | Null => Throw (TypeError v (keyName key))
  | Obj props => Normal (lookup (keyName key) props)
  | _ => Normal Undefined
  end.

(** The string on which [v.toLowerCase()] is called: only strings have the
    method. *)
Definition asString (v : Value) : Completion string :=
  match v with
  | Str s => Normal s
  | _ => Throw (TypeError v "toLowerCase")
  end.

Definition callToLowerCase (v : Value) : Completion string :=
  s <- asString v ;; ret (toLowerCase s).

(** The array on which [v.method(...)] is called, for the array methods
    [map], [filter], [some], [find] and [forEach]: only arrays have them. *)
Definition asArray (v : Value) (method : string) : Completion (list Value) :=
  match v with
  | Arr items => Normal items
  | _ => Throw (TypeError v method)
  end.

(** [x.length > 0] *)
Definition lengthPositive (x : Value) : Completion bool :=
  match x with
  | Undefined | Null => Throw (TypeError x "length")
  | Arr items => Normal (0 <? length items)%nat
  | Str s => Normal (truthy s)
  | Obj props => Normal (gtZero (lookup "length" props))
  | Bool _ | Num _ => Normal false
  end.

(** The array methods, with callbacks that can throw. [some] and [find]
    stop at the first hit. *)
Fixpoint mapM {A B} (f : A -> Completion B) (l : list A) : Completion (list B) :=
  match l with
  | [] => Normal []
  | x :: rest => y <- f x ;; ys <- mapM f rest ;; ret (y :: ys)
  end.

Fixpoint filterM {A} (f : A -> Completion bool) (l : list A) : Completion (list A) :=
  match l with
  | [] => Normal []
  | x :: rest =>
      keep <- f x ;;
      kept <- filterM f rest ;;
      Normal (if keep : bool then x :: kept else kept)
  end.

Fixpoint someM {A} (f : A -> Completion bool) (l : list A) : Completion bool :=
  match l with
  | [] => Normal false
  | x :: rest => hit <- f x ;; if hit : bool then ret true else someM f rest
  end.

Fixpoint findM (f : Value -> Completion bool) (l : list Value) : Completion Value :=
  match l with
  | [] => Normal Undefined
  | x :: rest => hit <- f x ;; if hit : bool then ret x else findM f rest
  end.

Fixpoint forEachM {A} (f : A -> Completion unit) (l : list A) : Completion unit :=
  match l with
  | [] => Normal tt
  | x :: rest => _ <- f x ;; forEachM f rest
  end.

(** Step 3: the [for ... of allLocations] loop. A location that passed
    [loc.toLowerCase()] is a string, and is kept as one. *)
Fixpoint collectLocations (lowerMsg : string) (allLocations : list Value)
  (locationsInMsg : list string) : Completion (list string) :=
  match allLocations with
  | [] => Normal locationsInMsg
  | loc :: rest =>
      s <- asString loc ;;
      collectLocations lowerMsg rest
        (if includes lowerMsg (toLowerCase s) then locationsInMsg ++ [s]
         else locationsInMsg)
  end.

(** [d.name.toLowerCase().includes(detectedDept.toLowerCase())] *)
Definition deptMatches (detectedDept : string) (d : Value) : Completion bool :=
  n <- getField d Kname ;;
  lowerName <- callToLowerCase n ;;
  ret (includes lowerName (toLowerCase detectedDept)).

(** [h.departments.some(d => ...)] *)
Definition hasDept (detectedDept : string) (h : Value) : Completion bool :=
  ds <- getField h Kdepartments ;;
  items <- asArray ds "some" ;;
  someM (deptMatches detectedDept) items.

(** [locationsInMsg.some(loc => h.state... || h.location...)] *)
Definition inLocations (locationsInMsg : list string) (h : Value) : Completion bool :=
  someM
    (fun loc =>
       st <- getField h Kstate ;;
       lowerState <- callToLowerCase st ;;
       if includes lowerState (toLowerCase loc) then ret true
       else
         lo <- getField h Klocation ;;
         lowerLocation <- callToLowerCase lo ;;
         ret (includes lowerLocation (toLowerCase loc)))
    locationsInMsg.

(** The body of [relevantHospitals.forEach(h => ...)]. *)
Definition gatherDoctors (detectedDept : string) (h : Value) : Completion unit :=
  ds <- getField h Kdepartments ;;
  items <- asArray ds "find" ;;
  dept <- findM (deptMatches detectedDept) items ;;
  if truthyValue dept then
    docs <- getField dept Kdoctors ;;
    positive <- lengthPositive docs ;;
    if positive : bool then
      doctors <- asArray docs "forEach" ;;
      forEachM (fun _ => Normal tt) doctors
    else ret tt
  else ret tt.

(** The three alias tests after the loop. *)
Definition addAliases (lowerMsg : string) (locationsInMsg : list string) : list string :=
  let locationsInMsg :=
    if includes lowerMsg "delhi" then locationsInMsg ++ ["Delhi"] else locationsInMsg in
  let locationsInMsg :=
    if includes lowerMsg "mumbai" then locationsInMsg ++ ["Maharashtra"]
    else locationsInMsg in
  let locationsInMsg :=
    if includes lowerMsg "bangalore" || includes lowerMsg "bengaluru"
    then locationsInMsg ++ ["Karnataka"] else locationsInMsg in
  locationsInMsg.

(** Step 4, "Formulate Response", to the end of the function. *)
Definition formulate (detectedDept : option string) (locationsInMsg : list string)
  (hospitals : list Value) : Completion Reply :=
  match detectedDept with
  | Some dept =>
      if truthy dept then
        relevant <- filterM (hasDept dept) hospitals ;;
        relevant <-
          (if (0 <? length locationsInMsg)%nat
           then filterM (inLocations locationsInMsg) relevant
           else ret relevant) ;;
        _ <- forEachM (gatherDoctors dept) relevant ;;
        let topHospitals := firstn 3 relevant in
        if (0 <? length topHospitals)%nat then
          ret (mkReply (found_text dept locationsInMsg) (Some topHospitals) None None)
        else
          ret (mkReply (not_found_text dept) None None None)
      else ret (mkReply FALLBACK_TEXT None None None)
  | None => ret (mkReply FALLBACK_TEXT None None None)
  end.

(** The function body after the first [await]. [MOCK_HOSPITALS] is used as
    an array three times; it is one constant, so what [map] found is what
    [filter] finds. *)
Definition respond (MOCK_HOSPITALS message : Value) : Completion Reply :=
  lowerMsg <- callToLowerCase message ;;
  if ChatService.isEmergency lowerMsg then
    ret (mkReply EMERGENCY_TEXT None None (Some AMBULANCE_DISPATCH))
  else
    let detectedDept := ChatService.detectDept lowerMsg in
    hospitals <- asArray MOCK_HOSPITALS "map" ;;
    states <- mapM (fun h => getField h Kstate) hospitals ;;
    locations <- mapM (fun h => getField h Klocation) hospitals ;;
    let allLocations := Set_of (states ++ locations) in
    locationsInMsg <- collectLocations lowerMsg allLocations [] ;;
    formulate detectedDept (addAliases lowerMsg locationsInMsg) hospitals.

(** [ChatService.sendMessage(message, language = 'en')]; [language] is not
    read. *)
Definition sendMessage (MOCK_HOSPITALS message language : Value) : Promise Reply :=
  _ <- setTimeout_promise 800 ;;
  settle (respond MOCK_HOSPITALS message).

(** A value that is a [Department] of [types.ts], as far as it is read: an
    object whose [name] is a string and whose [doctors] is an array. *)
Definition isDepartment (v : Value) (d : Department Value) : Prop :=
  exists props,
    v = Obj props
    /\ lookup "name" props = Str (dept_name d)
    /\ lookup "doctors" props = Arr (doctors d).

(** A value that is a [Hospital] of [types.ts], as far as it is read. *)
Definition isHospital (v : Value) (h : Hospital Value) : Prop :=
  exists props ds,
    v = Obj props
    /\ lookup "state" props = Str (state h)
    /\ lookup "location" props = Str (location h)
    /\ lookup "departments" props = Arr ds
    /\ Forall2 isDepartment ds (departments h).

(** The reply and the typed response say the same. *)
Definition sameReply (reply : Reply) (response : ChatResponse Value) : Prop :=
  reply_text reply = text response
  /\ reply_action reply = action response
  /\ reply_doctors reply = suggestedDoctors response
  /\ match reply_hospitals reply, suggestedHospitals response with
     | Some vs, Some hs => Forall2 isHospital vs hs
     | None, None => True
     | _, _ => False
     end.

End Engine.

End Js.

(** ** Vocabulary for statements about runs *)

Module Trace.

(** The hook events that append a message. *)
Definition appends (Doctor : Type) (ev : useMedicalChat.Event Doctor) : bool :=
  match ev with
  | useMedicalChat.Submit _ _ => true
  | useMedicalChat.Settle (Fulfilled _) => true
  | _ => false
  end.

Definition isClearChat (Doctor : Type) (ev : useMedicalChat.Event Doctor) : bool :=
  match ev with
  | useMedicalChat.ClearChat _ => true
  | _ => false
  end.

Definition isSelectLanguage (ev : DoctorBotPage.PageEvent) : bool :=
  match ev with
  | DoctorBotPage.SelectLanguage _ => true
  | _ => false
  end.

Definition isClickReset (ev : DoctorBotPage.PageEvent) : bool :=
  match ev with
  | DoctorBotPage.ClickReset => true
  | _ => false
  end.

(** [n] exchanges: user, assistant, user, assistant, ... *)
Definition turns (n : nat) : list Role := concat (repeat [user; assistant] n).

(** Every event followed by a render. *)
Definition withRenders (evs : list DoctorBotPage.PageEvent)
  : list DoctorBotPage.PageEvent :=
  flat_map (fun ev => [ev; DoctorBotPage.Render]) evs.

(** The values typed into the textarea in a run. *)
Definition typedValues (evs : list DoctorBotPage.PageEvent) : list string :=
  flat_map (fun ev => match ev with
                      | DoctorBotPage.Change value => [value]
                      | _ => []
                      end) evs.

Section Kinds.

Variable Doctor : Type.
Variable trim : string -> string.
Variable service : string -> string -> Promise (ChatResponse Doctor).

(** What a step of the page does to the chat state and to the pending
    calls: nothing, a submission, a reset or a settlement. *)
Inductive StepKind (p : DoctorBotPage.PageState Doctor) (ev : DoctorBotPage.PageEvent)
  (p' : DoctorBotPage.PageState Doctor) : Prop :=
| Idles :
    DoctorBotPage.chat p' = DoctorBotPage.chat p ->
    DoctorBotPage.pending p' = DoctorBotPage.pending p ->
    StepKind p ev p'
| Sends (typed : string) :
    typed = DoctorBotPage.r_input (DoctorBotPage.rendered p) ->
    DoctorBotPage.r_disabled (DoctorBotPage.rendered p) = false ->
    truthy (trim typed) = true ->
    DoctorBotPage.chat p' =
      useMedicalChat.sendMessage_begin (trim typed) (DoctorBotPage.chat p) ->
    DoctorBotPage.pending p' =
      DoctorBotPage.pending p
      ++ [(trim typed, DoctorBotPage.r_language (DoctorBotPage.rendered p))] ->
    StepKind p ev p'
| Resets :
    ev = DoctorBotPage.ClickReset ->
    DoctorBotPage.chat p' = useMedicalChat.clearChat (DoctorBotPage.chat p) ->
    DoctorBotPage.pending p' = DoctorBotPage.pending p ->
    StepKind p ev p'
| Settles (i : nat) (userMessage lang : string) :
    nth_error (DoctorBotPage.pending p) i = Some (userMessage, lang) ->
    DoctorBotPage.chat p' =
      useMedicalChat.sendMessage_settle (settled (service userMessage lang))
        (DoctorBotPage.chat p) ->
    DoctorBotPage.pending p' =
      firstn i (DoctorBotPage.pending p) ++ skipn (S i) (DoctorBotPage.pending p) ->
    StepKind p ev p'.

(** At most one call is pending, the loading flag tells whether one is, and
    the last render saw that flag. *)
Definition serialized (p : DoctorBotPage.PageState Doctor) : Prop :=
  length (DoctorBotPage.pending p)
  = (if isLoading (DoctorBotPage.chat p) then 1 else 0)
  /\ DoctorBotPage.r_disabled (DoctorBotPage.rendered p)
     = isLoading (DoctorBotPage.chat p).

(** Two pages that differ at most in the language selected, in the language
    the last render captured and in the language of the pending calls. *)
Definition same_but_language (p q : DoctorBotPage.PageState Doctor) : Prop :=
  DoctorBotPage.chat p = DoctorBotPage.chat q
  /\ DoctorBotPage.input p = DoctorBotPage.input q
  /\ map fst (DoctorBotPage.pending p) = map fst (DoctorBotPage.pending q)
  /\ DoctorBotPage.r_input (DoctorBotPage.rendered p)
     = DoctorBotPage.r_input (DoctorBotPage.rendered q)
  /\ DoctorBotPage.r_disabled (DoctorBotPage.rendered p)
     = DoctorBotPage.r_disabled (DoctorBotPage.rendered q)
  /\ DoctorBotPage.r_hasMessages (DoctorBotPage.rendered p)
     = DoctorBotPage.r_hasMessages (DoctorBotPage.rendered q).

(** The texts a run can send: every input the page holds or has rendered is
    empty or among [allowed], and every user message is the trimmed text of
    a value among [allowed], is not empty and has no suggestions. *)
Definition typed_only (allowed : list string) (p : DoctorBotPage.PageState Doctor)
  : Prop :=
  (DoctorBotPage.input p = "" \/ In (DoctorBotPage.input p) allowed)
  /\ (DoctorBotPage.r_input (DoctorBotPage.rendered p) = ""
      \/ In (DoctorBotPage.r_input (DoctorBotPage.rendered p)) allowed)
  /\ Forall (fun m => role m = user ->
                      truthy (content m) = true
                      /\ suggestions m = None
                      /\ exists typed, In typed allowed /\ content m = trim typed)
            (messages (DoctorBotPage.chat p)).

End Kinds.

End Trace.

(** ** The matching rules in the words of the specification

    These definitions follow the specification, not the source; the
    properties below compare them with the responder. *)

Module Spec.

Section Wording.

Variable Doctor : Type.
Variable toLowerCase : string -> string.

(** "[s] contains [sub] (substring match, case-insensitive)". *)
Definition contains_ci (s sub : string) : bool :=
  includes (toLowerCase s) (toLowerCase sub).

(** A hospital survives filtering when it has a department whose name
    contains the detected department and, if any location was detected, its
    state or location contains at least one detected location. *)
Definition survives (detectedDept : string) (locationsInMsg : list string)
  (h : Hospital Doctor) : bool :=
  existsb (fun d => contains_ci (dept_name d) detectedDept) (departments h)
  && match locationsInMsg with
     | [] => true
     | _ :: _ =>
         existsb (fun loc => contains_ci (state h) loc || contains_ci (location h) loc)
                 locationsInMsg
     end.

(** The first keyword of an ordered mapping found in the message. *)
Definition first_keyword (mapping : list (string * string)) (lowerMsg : string)
  : option (string * string) :=
  find (fun entry => includes lowerMsg (fst entry)) mapping.

(** The three hard-coded city aliases, each appended when its city is named. *)
Definition aliases (lowerMsg : string) : list string :=
  (if includes lowerMsg "delhi" then ["Delhi"] else [])
  ++ (if includes lowerMsg "mumbai" then ["Maharashtra"] else [])
  ++ (if includes lowerMsg "bangalore" || includes lowerMsg "bengaluru"
      then ["Karnataka"] else []).

(** A value of the directory: the state or the location of some hospital. *)
Definition directory_value (hospitals : list (Hospital Doctor)) (v : string) : Prop :=
  exists h, In h hospitals /\ (v = state h \/ v = location h).

(** The four shapes a reply can take. *)
Inductive ReplyShape (r : ChatResponse Doctor) : Prop :=
| EmergencyReply :
    r = mkChatResponse EMERGENCY_TEXT None None (Some AMBULANCE_DISPATCH) -> ReplyShape r
| FoundReply dept locs h rest :
    r = mkChatResponse (found_text dept locs) (Some (firstn 3 (h :: rest))) None None ->
    ReplyShape r
| NotFoundReply dept :
    r = mkChatResponse (not_found_text dept) None None None -> ReplyShape r
| FallbackReply :
    r = mkChatResponse FALLBACK_TEXT None None None -> ReplyShape r.

End Wording.

End Spec.

(** ** A small directory to run the model on

    [constants.ts] is not among the sources modelled here; these five records
    only serve to evaluate the definitions on concrete messages. Doctors are
    represented by their names. *)

Definition dept (n : string) (ds : list string) : Department string :=
  mkDepartment n ds.

Definition sampleHospitals : list (Hospital string) :=
  [ mkHospital "AIIMS" "Ansari Nagar" "Delhi" Government "8 AM - 2 PM"
      [dept "Cardiology" ["Dr. Rao"]; dept "Dermatology" []];
    mkHospital "KEM Hospital" "Parel" "Maharashtra" Government "9 AM - 1 PM"
      [dept "Cardiology" ["Dr. Shah"]; dept "Pediatrics" ["Dr. Joshi"]];
    mkHospital "Manipal Hospital" "Old Airport Road" "Karnataka" Private "9 AM - 5 PM"
      [dept "Interventional Cardiology" []; dept "ENT" ["Dr. Hegde"]];
    mkHospital "Safdarjung Hospital" "Delhi" "Delhi" Government "8 AM - 3 PM"
      [dept "Cardiology" []; dept "Dermatology" ["Dr. Mehta"]];
    mkHospital "Apollo Hospital" "Jubilee Hills" "Telangana" Private "10 AM - 6 PM"
      [dept "Cardiology" ["Dr. Reddy"]; dept "Oncology" ["Dr. Naidu"]] ].

(** The responder and the hook over that directory, with ASCII lower-casing. *)
Definition sampleRespond : string -> ChatResponse string :=
  ChatService.respond toLowerCase_ascii sampleHospitals.

Definition sampleService : string -> string -> Promise (ChatResponse string) :=
  chatService toLowerCase_ascii sampleHospitals.

(** A responder whose promise is rejected, to exercise the [catch] clause. *)
Definition failingService (e : Thrown) (userMessage language : string)
  : Promise (ChatResponse string) :=
  _ <- setTimeout_promise 800 ;;
  reject e.

(** The session after a submission that the failing responder rejected. *)
Definition erroredState : ChatState string :=
  useMedicalChat.sendMessage (failingService (ErrorObject "Failed to fetch"))
    "fever in Delhi" "en" (useMedicalChat.initialState string).

(** ASCII instance of [trim]: tab, line feed, vertical tab, form feed,
    carriage return and space are stripped from both ends. *)
Definition is_space_ascii (c : ascii) : bool :=
  let n := nat_of_ascii c in
  (((9 <=? n) && (n <=? 13)) || (n =? 32))%nat.

Fixpoint trimStart_ascii (s : string) : string :=
  match s with
  | EmptyString => EmptyString
  | String c s' => if is_space_ascii c then trimStart_ascii s' else s
  end.

Fixpoint trimEnd_ascii (s : string) : string :=
  match s with
  | EmptyString => EmptyString
  | String c s' =>
      match trimEnd_ascii s' with
      | EmptyString => if is_space_ascii c then EmptyString else String c EmptyString
      | rest => String c rest
      end
  end.

Definition trim_ascii (s : string) : string := trimEnd_ascii (trimStart_ascii s).

(** The page over the sample directory. *)
Definition samplePageRun (evs : list DoctorBotPage.PageEvent)
  : DoctorBotPage.PageState string :=
  DoctorBotPage.run trim_ascii sampleService evs (DoctorBotPage.initialPage string).

(** The page over a responder that rejects every call. *)
Definition failingPageRun (e : Thrown) (evs : list DoctorBotPage.PageEvent)
  : DoctorBotPage.PageState string :=
  DoctorBotPage.run trim_ascii (failingService e) evs (DoctorBotPage.initialPage string).

(** Two hospitals as JavaScript values, with a field the responder does not
    read, and the records they stand for. *)
Definition sampleJsDirectory : list Js.Value :=
  [ Js.Obj [("id", Js.Str "h1"); ("name", Js.Str "AIIMS");
            ("location", Js.Str "Ansari Nagar"); ("state", Js.Str "Delhi");
            ("departments",
             Js.Arr [Js.Obj [("name", Js.Str "Dermatology");
                             ("doctors", Js.Arr [Js.Str "Dr. Mehta"])]])];
    Js.Obj [("id", Js.Str "h2"); ("name", Js.Str "KEM Hospital");
            ("location", Js.Str "Parel"); ("state", Js.Str "Maharashtra");
            ("departments",
             Js.Arr [Js.Obj [("name", Js.Str "Cardiology"); ("doctors", Js.Arr [])]])] ].

Definition sampleJsHospitals : list (Hospital Js.Value) :=
  [ mkHospital "AIIMS" "Ansari Nagar" "Delhi" Government "8 AM - 2 PM"
      [mkDepartment "Dermatology" [Js.Str "Dr. Mehta"]];
    mkHospital "KEM Hospital" "Parel" "Maharashtra" Government "9 AM - 1 PM"
      [mkDepartment "Cardiology" []] ].

(** An engine for concrete runs: the TypeError message names the member. *)
Definition sampleJsSendMessage (MOCK_HOSPITALS message : Js.Value) : Promise Js.Reply :=
  Js.sendMessage toLowerCase_ascii (fun _ => false) (fun _ member => member)
    MOCK_HOSPITALS message Js.Undefined.

Unset Implicit Arguments.

(** * Properties *)

(** ** [includes] is the substring test *)

Lemma prefix_iff_append (p s : string) :
  prefix p s = true <-> exists rest, s = (p ++ rest)%string.
Proof.
  revert s. induction p as [|a p IH]; intros s; simpl.
  - split; [intros _; now exists s | intros _; now destruct s].
  - destruct s as [|b s].
    + split; [discriminate | intros [rest H]; discriminate H].
    + simpl. destruct (ascii_dec a b) as [->|Hab].
      * rewrite IH. split; intros [rest H]; exists rest.
        -- now rewrite H.
        -- now inversion H.
      * split; [discriminate | intros [rest H]; inversion H; congruence].
Qed.

Lemma includes_unfold (s sub : string) :
  includes s sub =
  if prefix sub s then true
  else match s with
       | EmptyString => false
       | String _ s' => includes s' sub
       end.
Proof. destruct s; reflexivity. Qed.

Lemma includes_true_substring (s sub : string) :
  includes s sub = true -> substring_of sub s.
Proof.
  induction s as [|c s IH]; rewrite includes_unfold;
    destruct (prefix sub _) eqn:Hp.
  - intros _. apply prefix_iff_append in Hp as [rest ->]. now exists "", rest.
  - discriminate.
  - intros _. apply prefix_iff_append in Hp as [rest ->]. now exists "", rest.
  - intros H. destruct (IH H) as (before & after & ->).
    now exists (String c before), after.
Qed.

Lemma substring_includes_true (before sub after : string) :
  includes (before ++ sub ++ after) sub = true.
Proof.
  induction before as [|c before IH]; rewrite includes_unfold.
  - simpl. replace (prefix sub (sub ++ after)) with true; [reflexivity|].
    symmetry. apply prefix_iff_append. now exists after.
  - destruct (prefix sub _); [reflexivity | exact IH].
Qed.

Lemma includes_spec (s sub : string) :
  includes s sub = true <-> substring_of sub s.
Proof.
  split; [apply includes_true_substring|].
  intros (before & after & ->). apply substring_includes_true.
Qed.

(** ** [new Set] keeps each value once, in first-insertion order *)

Lemma existsb_eqb_In (x : string) (s : list string) :
  existsb (String.eqb x) s = true <-> In x s.
Proof.
  rewrite existsb_exists. split.
  - intros (y & Hy & Heq). apply String.eqb_eq in Heq. now subst.
  - intros H. exists x. split; [assumption | apply String.eqb_refl].
Qed.

Lemma Set_add_In (s : list string) (x v : string) :
  In v (Set_add s x) <-> In v s \/ v = x.
Proof.
  unfold Set_add. destruct (existsb (String.eqb x) s) eqn:E.
  - apply existsb_eqb_In in E. split; [now left | intros [H | ->]; assumption].
  - rewrite in_app_iff. simpl. intuition congruence.
Qed.

Lemma Set_add_NoDup (s : list string) (x : string) :
  NoDup s -> NoDup (Set_add s x).
Proof.
  intros Hs. unfold Set_add. destruct (existsb (String.eqb x) s) eqn:E; [assumption|].
  assert (Hx : ~ In x s).
  { intros Hin. apply existsb_eqb_In in Hin. congruence. }
  clear E. induction Hs as [|a l Ha Hl IH]; simpl.
  - constructor; [intros [] | constructor].
  - constructor.
    + rewrite in_app_iff. simpl. intros [H | [H | []]]; [contradiction|].
      apply Hx. now left.
    + apply IH. intros H. apply Hx. now right.
Qed.

Lemma fold_Set_add_In (xs s : list string) (v : string) :
  In v (fold_left Set_add xs s) <-> In v s \/ In v xs.
Proof.
  revert s. induction xs as [|x xs IH]; intros s; simpl.
  - intuition.
  - rewrite IH, Set_add_In. intuition.
Qed.

Lemma fold_Set_add_NoDup (xs s : list string) :
  NoDup s -> NoDup (fold_left Set_add xs s).
Proof.
  revert s. induction xs as [|x xs IH]; intros s Hs; simpl; [assumption|].
  apply IH, Set_add_NoDup, Hs.
Qed.

Lemma Set_of_In (xs : list string) (v : string) : In v (Set_of xs) <-> In v xs.
Proof. unfold Set_of. rewrite fold_Set_add_In. simpl. intuition. Qed.

Lemma Set_of_NoDup (xs : list string) : NoDup (Set_of xs).
Proof. apply fold_Set_add_NoDup. constructor. Qed.

(** ** The responder, branch by branch *)

Lemma SYMPTOM_MAP_depts_truthy :
  forallb (fun kd => truthy (snd kd)) SYMPTOM_MAP = true.
Proof. reflexivity. Qed.

Lemma isEmergency_iff (lowerMsg : string) :
  ChatService.isEmergency lowerMsg = true <->
  exists kw, In kw EMERGENCY_KEYWORDS /\ includes lowerMsg kw = true.
Proof.
  unfold ChatService.isEmergency, EMERGENCY_KEYWORDS. rewrite !orb_true_iff. split.
  - intros [[[H | H] | H] | H]; eexists; (split; [|exact H]); simpl; tauto.
  - intros (kw & Hin & H). simpl in Hin.
    destruct Hin as [<- | [<- | [<- | [<- | []]]]]; tauto.
Qed.

Lemma detectDept_loop_first (entries before after : list (string * string))
  (key dept lowerMsg : string) :
  entries = before ++ (key, dept) :: after ->
  includes lowerMsg key = true ->
  (forall k d, In (k, d) before -> includes lowerMsg k = false) ->
  ChatService.detectDept_loop entries lowerMsg = Some dept.
Proof.
  intros -> Hkey. induction before as [|[k d] before IH]; intros Hbefore; simpl.
  - now rewrite Hkey.
  - rewrite (Hbefore k d) by now left.
    apply IH. intros k' d' Hin. apply (Hbefore k' d'). now right.
Qed.

Lemma detectDept_loop_Some (entries : list (string * string)) (lowerMsg dept : string) :
  ChatService.detectDept_loop entries lowerMsg = Some dept ->
  exists before key after,
    entries = before ++ (key, dept) :: after /\
    includes lowerMsg key = true /\
    forall k d, In (k, d) before -> includes lowerMsg k = false.
Proof.
  induction entries as [|[k d] entries IH]; simpl; [discriminate|].
  destruct (includes lowerMsg k) eqn:E.
  - intros [= ->]. exists [], k, entries. repeat split; [assumption | intros ? ? []].
  - intros H. destruct (IH H) as (before & key & after & -> & Hkey & Hbefore).
    exists ((k, d) :: before), key, after. repeat split; [assumption|].
    intros k' d' [[= <- <-] | Hin]; [assumption | eauto].
Qed.

Lemma detectDept_loop_None (entries : list (string * string)) (lowerMsg : string) :
  ChatService.detectDept_loop entries lowerMsg = None <->
  forall k d, In (k, d) entries -> includes lowerMsg k = false.
Proof.
  induction entries as [|[k d] entries IH]; simpl.
  - split; [intros _ ? ? [] | reflexivity].
  - destruct (includes lowerMsg k) eqn:E.
    + split; [discriminate|]. intros H. specialize (H k d (or_introl eq_refl)). congruence.
    + rewrite IH. split.
      * intros H k' d' [[= <- <-] | Hin]; [assumption | eauto].
      * intros H k' d' Hin. apply (H k' d'). now right.
Qed.

Lemma detectDept_truthy (lowerMsg dept : string) :
  ChatService.detectDept lowerMsg = Some dept -> truthy dept = true.
Proof.
  intros H. apply detectDept_loop_Some in H as (before & key & after & Heq & _).
  pose proof SYMPTOM_MAP_depts_truthy as Hall. rewrite forallb_forall in Hall.
  apply (Hall (key, dept)). rewrite Heq. apply in_elt.
Qed.

Section ResponderFacts.

Variable Doctor : Type.
Variable toLowerCase : string -> string.
Variable MOCK_HOSPITALS : list (Hospital Doctor).

Local Abbreviation respond := (ChatService.respond toLowerCase MOCK_HOSPITALS).
Local Abbreviation detectLocations :=
  (ChatService.detectLocations toLowerCase MOCK_HOSPITALS).
Local Abbreviation relevantHospitals :=
  (ChatService.relevantHospitals toLowerCase MOCK_HOSPITALS).

Lemma respond_emergency (message : string) :
  ChatService.isEmergency (toLowerCase message) = true ->
  respond message = mkChatResponse EMERGENCY_TEXT None None (Some AMBULANCE_DISPATCH).
Proof. intros H. unfold ChatService.respond. now rewrite H. Qed.

Lemma respond_dept (message dept : string) :
  ChatService.isEmergency (toLowerCase message) = false ->
  ChatService.detectDept (toLowerCase message) = Some dept ->
  respond message =
  let locationsInMsg := detectLocations (toLowerCase message) in
  match relevantHospitals dept locationsInMsg with
  | [] => mkChatResponse (not_found_text dept) None None None
  | h :: rest =>
      mkChatResponse (found_text dept locationsInMsg) (Some (firstn 3 (h :: rest))) None None
  end.
Proof.
  intros He Hd. unfold ChatService.respond. rewrite He, Hd.
  rewrite (detectDept_truthy _ _ Hd). cbv zeta.
  destruct (ChatService.relevantHospitals _ _ _ _) as [|h relevant]; reflexivity.
Qed.

Lemma respond_fallback (message : string) :
  ChatService.isEmergency (toLowerCase message) = false ->
  ChatService.detectDept (toLowerCase message) = None ->
  respond message = mkChatResponse FALLBACK_TEXT None None None.
Proof. intros He Hd. unfold ChatService.respond. now rewrite He, Hd. Qed.

End ResponderFacts.

(** ** The responder as a promise *)

Section ResponderClaims.

Variable Doctor : Type.
Variable toLowerCase : string -> string.
Variable MOCK_HOSPITALS : list (Hospital Doctor).

Local Abbreviation respond := (ChatService.respond toLowerCase MOCK_HOSPITALS).
Local Abbreviation sendMessage := (ChatService.sendMessage toLowerCase MOCK_HOSPITALS).
Local Abbreviation detectLocations :=
  (ChatService.detectLocations toLowerCase MOCK_HOSPITALS).

Lemma sendMessage_settles (message : string) (language : option string) :
  sendMessage message language = mkPromise 800 (Fulfilled (respond message)).
Proof. reflexivity. Qed.

Lemma no_keyword_not_emergency (lowerMsg : string) :
  (forall kw, In kw EMERGENCY_KEYWORDS -> ~ substring_of kw lowerMsg) ->
  ChatService.isEmergency lowerMsg = false.
Proof.
  intros H. destruct (ChatService.isEmergency lowerMsg) eqn:E; [|reflexivity].
  apply isEmergency_iff in E as (kw & Hin & Hkw).
  apply includes_spec in Hkw. exact (False_ind _ (H kw Hin Hkw)).
Qed.

Lemma respond_shape (message : string) : Spec.ReplyShape (respond message).
Proof.
  destruct (ChatService.isEmergency (toLowerCase message)) eqn:He.
  - apply Spec.EmergencyReply, respond_emergency, He.
  - destruct (ChatService.detectDept (toLowerCase message)) as [dept|] eqn:Hd.
    + rewrite (respond_dept _ _ _ _ _ He Hd). cbv zeta.
      destruct (ChatService.relevantHospitals _ _ _ _) as [|h rest].
      * now apply Spec.NotFoundReply with dept.
      * now eapply Spec.FoundReply.
    + apply Spec.FallbackReply, respond_fallback; assumption.
Qed.

(** C1. A message whose lower-cased text contains "emergency", "accident",
    "ambulance" or "bleeding" is answered with the fixed emergency text, the
    action AMBULANCE_DISPATCH and no suggested hospitals (nor doctors),
    whatever else the message contains and whatever the directory holds. *)
Theorem emergency_keyword_short_circuits
  (message : string) (language : option string) (kw : string) :
  In kw EMERGENCY_KEYWORDS ->
  substring_of kw (toLowerCase message) ->
  sendMessage message language =
  mkPromise 800
    (Fulfilled (mkChatResponse EMERGENCY_TEXT None None (Some AMBULANCE_DISPATCH))).
Proof.
  intros Hin Hsub. rewrite sendMessage_settles. do 2 f_equal.
  apply respond_emergency, isEmergency_iff.
  exists kw. split; [assumption | now apply includes_spec].
Qed.

(** C5. A message whose lower-cased text contains no emergency keyword and
    no key of SYMPTOM_MAP is answered with exactly the fallback text, with no
    suggested hospitals and no action; the directory, and so any location
    found in the message, plays no part. *)
Theorem no_keyword_gives_fallback (message : string) (language : option string) :
  (forall kw, In kw EMERGENCY_KEYWORDS -> ~ substring_of kw (toLowerCase message)) ->
  (forall key dept, In (key, dept) SYMPTOM_MAP ->
                    ~ substring_of key (toLowerCase message)) ->
  sendMessage message language =
  mkPromise 800 (Fulfilled (mkChatResponse FALLBACK_TEXT None None None)).
Proof.
  intros Hem Hmap. rewrite sendMessage_settles. do 2 f_equal.
  apply respond_fallback.
  - apply no_keyword_not_emergency, Hem.
  - apply detectDept_loop_None. intros k d Hin.
    destruct (includes (toLowerCase message) k) eqn:E; [|reflexivity].
    apply includes_spec in E. exact (False_ind _ (Hmap k d Hin E)).
Qed.

(** C10. Whenever the response of the responder has an action, the action is
    AMBULANCE_DISPATCH and the response has no suggested hospitals;
    BOOKING_REDIRECT is never the action. *)
Theorem action_is_ambulance_dispatch_only
  (message : string) (language : option string) (response : ChatResponse Doctor) :
  settled (sendMessage message language) = Fulfilled response ->
  (forall a, action response = Some a ->
             a = AMBULANCE_DISPATCH /\ suggestedHospitals response = None)
  /\ action response <> Some BOOKING_REDIRECT.
Proof.
  rewrite sendMessage_settles. simpl. intros [= <-].
  destruct (respond_shape message) as [-> | ? ? ? ? -> | ? -> | ->]; simpl;
    split; try discriminate; intros a [= <-]; now split.
Qed.

End ResponderClaims.

(** ** Department and location matching *)

Lemma detectDept_loop_first_keyword (entries : list (string * string)) (lowerMsg : string) :
  ChatService.detectDept_loop entries lowerMsg =
  option_map snd (Spec.first_keyword entries lowerMsg).
Proof.
  unfold Spec.first_keyword.
  induction entries as [|[k d] entries IH]; simpl; [reflexivity|].
  destruct (includes lowerMsg k); [reflexivity | exact IH].
Qed.

Lemma filter_filter (A : Type) (f g : A -> bool) (l : list A) :
  filter g (filter f l) = filter (fun x => f x && g x) l.
Proof.
  induction l as [|x l IH]; simpl; [reflexivity|].
  destruct (f x); simpl; [destruct (g x)|]; now rewrite IH.
Qed.

Lemma NoDup_app_common (A : Type) (l1 l2 : list A) (x : A) :
  In x l1 -> In x l2 -> ~ NoDup (l1 ++ l2).
Proof.
  intros H1 H2. induction l1 as [|a l1 IH]; [destruct H1|].
  simpl. intros Hnd. inversion Hnd as [|? ? Hnotin Hrest]; subst.
  destruct H1 as [-> | H1].
  - apply Hnotin, in_or_app. now right.
  - now apply IH.
Qed.

Section MatchingClaims.

Variable Doctor : Type.
Variable toLowerCase : string -> string.
Variable MOCK_HOSPITALS : list (Hospital Doctor).

Local Abbreviation respond := (ChatService.respond toLowerCase MOCK_HOSPITALS).
Local Abbreviation sendMessage := (ChatService.sendMessage toLowerCase MOCK_HOSPITALS).
Local Abbreviation detectLocations :=
  (ChatService.detectLocations toLowerCase MOCK_HOSPITALS).
Local Abbreviation survives := (Spec.survives toLowerCase).

Lemma relevantHospitals_survivors (detectedDept : string) (locationsInMsg : list string) :
  ChatService.relevantHospitals toLowerCase MOCK_HOSPITALS detectedDept locationsInMsg =
  filter (survives detectedDept locationsInMsg) MOCK_HOSPITALS.
Proof.
  unfold ChatService.relevantHospitals. destruct locationsInMsg as [|loc locs].
  - simpl. apply filter_ext. intros h. unfold Spec.survives.
    now rewrite andb_true_r.
  - change (0 <? length (loc :: locs))%nat with true. cbv iota.
    rewrite filter_filter. apply filter_ext. intros h. reflexivity.
Qed.

Lemma detectLocations_aliases (lowerMsg : string) :
  detectLocations lowerMsg =
  filter (fun loc => includes lowerMsg (toLowerCase loc))
         (ChatService.allLocations MOCK_HOSPITALS)
  ++ Spec.aliases lowerMsg.
Proof.
  unfold ChatService.detectLocations, Spec.aliases.
  destruct (includes lowerMsg "delhi"), (includes lowerMsg "mumbai"),
    (includes lowerMsg "bangalore" || includes lowerMsg "bengaluru");
    cbv iota; rewrite <- ?app_assoc; simpl; now rewrite ?app_nil_r.
Qed.

Lemma allLocations_In (v : string) :
  In v (ChatService.allLocations MOCK_HOSPITALS) <-> Spec.directory_value MOCK_HOSPITALS v.
Proof.
  unfold ChatService.allLocations, Spec.directory_value.
  rewrite Set_of_In, in_app_iff, !in_map_iff. split.
  - intros [(h & <- & Hh) | (h & <- & Hh)]; exists h; auto.
  - intros (h & Hh & [-> | ->]); [left | right]; now exists h.
Qed.

(** C2. In a non-emergency message the detected department is the one of
    the first entry of SYMPTOM_MAP, in declaration order, whose keyword
    occurs in the lower-cased message: if an entry's keyword occurs and no
    earlier entry's keyword does, that entry's department is detected,
    whatever later keywords the message contains, and it is the department
    the reply names. *)
Theorem first_declared_keyword_decides
  (message : string) (before after : list (string * string)) (key dept : string) :
  (forall kw, In kw EMERGENCY_KEYWORDS -> ~ substring_of kw (toLowerCase message)) ->
  SYMPTOM_MAP = before ++ (key, dept) :: after ->
  substring_of key (toLowerCase message) ->
  (forall k d, In (k, d) before -> ~ substring_of k (toLowerCase message)) ->
  ChatService.detectDept (toLowerCase message) = Some dept
  /\ Spec.first_keyword SYMPTOM_MAP (toLowerCase message) = Some (key, dept)
  /\ (text (respond message) = found_text dept (detectLocations (toLowerCase message))
      \/ text (respond message) = not_found_text dept).
Proof.
  intros Hem Hsplit Hkey Hbefore.
  assert (Hkey' : includes (toLowerCase message) key = true)
    by now apply includes_spec.
  assert (Hbefore' : forall k d, In (k, d) before ->
                                 includes (toLowerCase message) k = false).
  { intros k d Hin. destruct (includes (toLowerCase message) k) eqn:E; [|reflexivity].
    apply includes_spec in E. exact (False_ind _ (Hbefore k d Hin E)). }
  assert (Hd : ChatService.detectDept (toLowerCase message) = Some dept)
    by exact (detectDept_loop_first _ _ _ _ _ _ Hsplit Hkey' Hbefore').
  split; [exact Hd | split].
  - unfold Spec.first_keyword. rewrite Hsplit. clear Hsplit Hd Hbefore.
    induction before as [|[k d] before IH]; simpl.
    + now rewrite Hkey'.
    + rewrite (Hbefore' k d) by now left.
      apply IH. intros k' d' Hin. apply (Hbefore' k' d'). now right.
  - rewrite (respond_dept _ _ _ _ _ (no_keyword_not_emergency _ Hem) Hd). cbv zeta.
    destruct (ChatService.relevantHospitals _ _ _ _); simpl; auto.
Qed.

(** C3. In a non-emergency message with a detected department, the hospitals
    that survive filtering are those of the directory having a department
    whose name contains the detected department and, when a location was
    detected, whose state or location contains a detected location (both
    case-insensitively). The response carries suggestedHospitals exactly
    when some hospital survives, and then the list is the first three
    survivors at most, in directory order; when none survives the reply is
    the could-not-match text with no suggestions. *)
Theorem suggestions_are_first_three_survivors
  (message : string) (language : option string) (dept : string) :
  (forall kw, In kw EMERGENCY_KEYWORDS -> ~ substring_of kw (toLowerCase message)) ->
  ChatService.detectDept (toLowerCase message) = Some dept ->
  let locationsInMsg := detectLocations (toLowerCase message) in
  let survivors := filter (survives dept locationsInMsg) MOCK_HOSPITALS in
  exists response,
    sendMessage message language = mkPromise 800 (Fulfilled response)
    /\ (suggestedHospitals response <> None <-> survivors <> [])
    /\ (survivors <> [] ->
        response = mkChatResponse (found_text dept locationsInMsg)
                     (Some (firstn 3 survivors)) None None)
    /\ (survivors = [] ->
        response = mkChatResponse (not_found_text dept) None None None).
Proof.
  intros Hem Hd locationsInMsg survivors.
  exists (respond message). split; [apply sendMessage_settles|].
  rewrite (respond_dept _ _ _ _ _ (no_keyword_not_emergency _ Hem) Hd). cbv zeta.
  rewrite relevantHospitals_survivors. fold locationsInMsg. fold survivors.
  destruct survivors as [|h rest]; simpl.
  - repeat split; congruence.
  - repeat split; congruence.
Qed.

(** C4. The detected locations are: the values of the directory (states
    first, then locations, each value once) whose lower-cased string occurs
    in the lower-cased message, followed by "Delhi" if the message contains
    "delhi", "Maharashtra" if it contains "mumbai" and "Karnataka" if it
    contains "bangalore" or "bengaluru". An alias is appended whether or not
    the same value was collected from the directory, in which case the list
    holds it twice. This holds for every message, so for every non-emergency
    one. *)
Theorem detected_locations_keep_duplicate_aliases (message : string) :
  let lowerMsg := toLowerCase message in
  exists collected,
    detectLocations lowerMsg = collected ++ Spec.aliases lowerMsg
    /\ NoDup collected
    /\ (forall v, In v collected <->
                  Spec.directory_value MOCK_HOSPITALS v
                  /\ substring_of (toLowerCase v) lowerMsg)
    /\ (forall v, Spec.directory_value MOCK_HOSPITALS v ->
                  substring_of (toLowerCase v) lowerMsg ->
                  In v (detectLocations lowerMsg))
    /\ (substring_of "delhi" lowerMsg -> In "Delhi" (Spec.aliases lowerMsg))
    /\ (substring_of "mumbai" lowerMsg -> In "Maharashtra" (Spec.aliases lowerMsg))
    /\ (substring_of "bangalore" lowerMsg \/ substring_of "bengaluru" lowerMsg ->
        In "Karnataka" (Spec.aliases lowerMsg))
    /\ (forall v, In v collected -> In v (Spec.aliases lowerMsg) ->
                  ~ NoDup (detectLocations lowerMsg)).
Proof.
  intros lowerMsg.
  exists (filter (fun loc => includes lowerMsg (toLowerCase loc))
                 (ChatService.allLocations MOCK_HOSPITALS)).
  assert (Hin : forall v,
             In v (filter (fun loc => includes lowerMsg (toLowerCase loc))
                          (ChatService.allLocations MOCK_HOSPITALS)) <->
             Spec.directory_value MOCK_HOSPITALS v
             /\ substring_of (toLowerCase v) lowerMsg).
  { intros v. now rewrite filter_In, allLocations_In, includes_spec. }
  rewrite detectLocations_aliases.
  split; [reflexivity|].
  split; [apply NoDup_filter, Set_of_NoDup|].
  split; [exact Hin|].
  split; [intros v Hv Hsub; apply in_or_app; left; apply Hin; now split|].
  unfold Spec.aliases.
  split; [|split; [|split]].
  - intros H. apply includes_spec in H. rewrite H. now left.
  - intros H. apply includes_spec in H. rewrite H.
    apply in_or_app. right. now left.
  - intros H.
    assert (E : includes lowerMsg "bangalore" || includes lowerMsg "bengaluru" = true).
    { apply orb_true_iff. destruct H as [H | H]; apply includes_spec in H; auto. }
    rewrite E. apply in_or_app. right. apply in_or_app. right. now left.
  - intros v Hc Ha. now apply NoDup_app_common with v.
Qed.

(** C6. The language code does not influence the responder: for one message
    and any two language arguments (given or omitted) the promises are the
    same, and so are the session states a submission leaves. *)
Theorem language_does_not_interfere (message : string) :
  (forall l1 l2 : option string, sendMessage message l1 = sendMessage message l2)
  /\ forall (l1 l2 : string) (s : ChatState Doctor),
       useMedicalChat.sendMessage (chatService toLowerCase MOCK_HOSPITALS) message l1 s =
       useMedicalChat.sendMessage (chatService toLowerCase MOCK_HOSPITALS) message l2 s.
Proof.
  split.
  - intros l1 l2. now rewrite !sendMessage_settles.
  - intros l1 l2 s. unfold useMedicalChat.sendMessage, chatService.
    now rewrite !sendMessage_settles.
Qed.

End MatchingClaims.

(** ** The session state *)

Section HookClaims.

Variable Doctor : Type.
Variable service : string -> string -> Promise (ChatResponse Doctor).

Local Abbreviation State := (ChatState Doctor).
Local Abbreviation sendMessage := (useMedicalChat.sendMessage service).

Lemma sendMessage_begin_spec (userMessage : string) (s : State) :
  useMedicalChat.sendMessage_begin userMessage s =
  mkChatState (messages s ++ [mkMessage user userMessage None]) true None.
Proof. reflexivity. Qed.

Lemma sendMessage_settle_rejected (e : Thrown) (s : State) :
  useMedicalChat.sendMessage_settle (Rejected e) s =
  mkChatState (messages s) false (Some (useMedicalChat.errorMessage e)).
Proof. reflexivity. Qed.

Lemma sendMessage_settle_fulfilled (response : ChatResponse Doctor) (s : State) :
  useMedicalChat.sendMessage_settle (Fulfilled response) s =
  mkChatState
    (messages s ++ [mkMessage assistant (text response) (suggestedHospitals response)])
    false (error s).
Proof. reflexivity. Qed.

Lemma step_messages_only (s s' : State) (ev : useMedicalChat.Event Doctor) :
  messages s = messages s' ->
  messages (useMedicalChat.step s ev) = messages (useMedicalChat.step s' ev).
Proof.
  intros H. destruct ev as [userMessage | [response | e] | |]; simpl; congruence.
Qed.

Lemma run_messages_only (evs : list (useMedicalChat.Event Doctor)) (s s' : State) :
  messages s = messages s' ->
  messages (useMedicalChat.run evs s) = messages (useMedicalChat.run evs s').
Proof.
  unfold useMedicalChat.run. revert s s'.
  induction evs as [|ev evs IH]; intros s s' H; simpl; [exact H|].
  apply IH, step_messages_only, H.
Qed.

(** C8, as the hook has it. Reset (clearChat) empties the message list and
    leaves the error and the loading flag as they were; the error is cleared
    by clearError and by the start of the next submission. Reset cancels no
    call in flight: the message list after reset is built only from the
    events that follow it, and is the list the same events build from the
    initial state. So a submission made after a reset, with nothing else
    pending, yields its user message followed, when its promise is
    fulfilled, by its reply, while the reply of a call that was pending at
    the reset is appended to the new history when its promise is fulfilled,
    before the messages of the next submission. *)
Theorem clearChat_empties_messages_and_cancels_nothing (s : State) :
  messages (useMedicalChat.clearChat s) = []
  /\ error (useMedicalChat.clearChat s) = error s
  /\ isLoading (useMedicalChat.clearChat s) = isLoading s
  /\ error (useMedicalChat.clearError (useMedicalChat.clearChat s)) = None
  /\ (forall userMessage,
        error (useMedicalChat.sendMessage_begin userMessage (useMedicalChat.clearChat s))
        = None)
  /\ (forall after,
        messages (useMedicalChat.run after (useMedicalChat.clearChat s))
        = messages (useMedicalChat.run after (useMedicalChat.initialState Doctor)))
  /\ (forall userMessage language,
        messages (sendMessage userMessage language (useMedicalChat.clearChat s))
        = mkMessage user userMessage None
          :: match settled (service userMessage language) with
             | Fulfilled response =>
                 [mkMessage assistant (text response) (suggestedHospitals response)]
             | Rejected _ => []
             end)
  /\ (forall earlier userMessage language,
        messages
          (useMedicalChat.run
             [useMedicalChat.Settle (Fulfilled earlier);
              useMedicalChat.Submit Doctor userMessage;
              useMedicalChat.Settle (settled (service userMessage language))]
             (useMedicalChat.clearChat s))
        = mkMessage assistant (text earlier) (suggestedHospitals earlier)
          :: mkMessage user userMessage None
          :: match settled (service userMessage language) with
             | Fulfilled response =>
                 [mkMessage assistant (text response) (suggestedHospitals response)]
             | Rejected _ => []
             end).
Proof.
  repeat split.
  - intros after. now apply run_messages_only.
  - intros userMessage language. unfold useMedicalChat.sendMessage.
    destruct (settled (service userMessage language)); reflexivity.
  - intros earlier userMessage language. simpl.
    destruct (settled (service userMessage language)); reflexivity.
Qed.

(** C9. When the promise of the responder is rejected, the submission
    leaves the user message it appended in the list and appends nothing
    else (the rejection changes no message list, whatever happened since the
    submission began), stores the error string (the message of the Error, or the
    generic text) and clears the loading flag. Every submission clears the
    error before it calls the responder, and clearError clears it too. *)
Theorem rejected_submit_keeps_user_message
  (s : State) (userMessage language : string) (e : Thrown) :
  settled (service userMessage language) = Rejected e ->
  let begun := useMedicalChat.sendMessage_begin userMessage s in
  let final := sendMessage userMessage language s in
  (error begun = None /\ isLoading begun = true)
  /\ messages final = messages s ++ [mkMessage user userMessage None]
  /\ error final = Some (useMedicalChat.errorMessage e)
  /\ isLoading final = false
  /\ (forall later : State,
        messages (useMedicalChat.sendMessage_settle (Rejected e) later) = messages later)
  /\ (forall next, error (useMedicalChat.sendMessage_begin next final) = None)
  /\ error (useMedicalChat.clearError final) = None.
Proof.
  intros Hrej begun final. subst begun final.
  unfold useMedicalChat.sendMessage. rewrite Hrej, sendMessage_settle_rejected.
  rewrite sendMessage_begin_spec. simpl. repeat split.
Qed.

End HookClaims.

(** ** Runs of the session *)

Section Runs.

Variable Doctor : Type.

Local Abbreviation State := (ChatState Doctor).

Lemma sendMessage_as_events
  (service : string -> string -> Promise (ChatResponse Doctor))
  (userMessage language : string) (s : State) :
  useMedicalChat.sendMessage service userMessage language s =
  useMedicalChat.run
    [useMedicalChat.Submit Doctor userMessage;
     useMedicalChat.Settle (settled (service userMessage language))] s.
Proof. reflexivity. Qed.

(** As long as every promise awaited is fulfilled, which is what the
    shipped responder does, no error is ever stored. *)
Lemma run_fulfilled_no_error (evs : list (useMedicalChat.Event Doctor)) (s : State) :
  (forall e, ~ In (useMedicalChat.Settle (Rejected e)) evs) ->
  error s = None ->
  error (useMedicalChat.run evs s) = None.
Proof.
  unfold useMedicalChat.run. revert s.
  induction evs as [|ev evs IH]; intros s Hok Hs; simpl; [exact Hs|].
  apply IH.
  - intros e Hin. apply (Hok e). now right.
  - destruct ev as [userMessage | [response | e] | |]; simpl; try assumption;
      try reflexivity.
    exfalso. apply (Hok e). now left.
Qed.

End Runs.

(** ** The model on concrete messages *)

Lemma absent_keywords (s : string) (kws : list string) :
  forallb (fun kw => negb (includes s kw)) kws = true ->
  forall kw, In kw kws -> ~ substring_of kw s.
Proof.
  intros Hall kw Hin Hsub. rewrite forallb_forall in Hall.
  apply includes_spec in Hsub. specialize (Hall kw Hin).
  rewrite Hsub in Hall. discriminate Hall.
Qed.

Lemma absent_keys (s : string) (entries : list (string * string)) :
  forallb (fun entry => negb (includes s (fst entry))) entries = true ->
  forall key dept, In (key, dept) entries -> ~ substring_of key s.
Proof.
  intros Hall key dept Hin Hsub. rewrite forallb_forall in Hall.
  apply includes_spec in Hsub. specialize (Hall (key, dept) Hin).
  simpl in Hall. rewrite Hsub in Hall. discriminate Hall.
Qed.

Example cardiology_without_location :
  sampleRespond "I have chest pain" =
  mkChatResponse (found_text "Cardiology" []) (Some (firstn 3 sampleHospitals)) None None.
Proof. reflexivity. Qed.

Example dermatology_in_delhi :
  option_map (map (@name string)) (suggestedHospitals (sampleRespond "Skin rash in Delhi"))
  = Some ["AIIMS"; "Safdarjung Hospital"].
Proof. reflexivity. Qed.

Example oncology_not_in_karnataka :
  sampleRespond "cancer in bengaluru" =
  mkChatResponse (not_found_text "Oncology") None None None.
Proof. reflexivity. Qed.

Example gatherDoctors_contributes_nothing :
  ChatService.gatherDoctors toLowerCase_ascii "Cardiology" sampleHospitals = [].
Proof. reflexivity. Qed.

Lemma emergency_keyword_short_circuits_witness :
  In "bleeding" EMERGENCY_KEYWORDS
  /\ substring_of "bleeding" (toLowerCase_ascii "Chest pain and BLEEDING in Delhi")
  /\ ChatService.sendMessage toLowerCase_ascii sampleHospitals
       "Chest pain and BLEEDING in Delhi" (Some "hi") =
     mkPromise 800
       (Fulfilled (mkChatResponse EMERGENCY_TEXT None None (Some AMBULANCE_DISPATCH))).
Proof.
  assert (Hin : In "bleeding" EMERGENCY_KEYWORDS) by (simpl; tauto).
  assert (Hsub : substring_of "bleeding"
                   (toLowerCase_ascii "Chest pain and BLEEDING in Delhi"))
    by (exists "chest pain and ", " in delhi"; reflexivity).
  split; [exact Hin | split; [exact Hsub|]].
  exact (emergency_keyword_short_circuits string toLowerCase_ascii sampleHospitals
           "Chest pain and BLEEDING in Delhi" (Some "hi") "bleeding" Hin Hsub).
Defined.

Lemma first_declared_keyword_decides_witness :
  let message := "Skin rash and a cough since Monday" in
  ChatService.detectDept (toLowerCase_ascii message) = Some "Pulmonology"
  /\ Spec.first_keyword SYMPTOM_MAP (toLowerCase_ascii message)
     = Some ("cough", "Pulmonology")
  /\ (text (sampleRespond message)
      = found_text "Pulmonology"
          (ChatService.detectLocations toLowerCase_ascii sampleHospitals
             (toLowerCase_ascii message))
      \/ text (sampleRespond message) = not_found_text "Pulmonology").
Proof.
  apply (first_declared_keyword_decides string toLowerCase_ascii sampleHospitals
           "Skin rash and a cough since Monday"
           (firstn 3 SYMPTOM_MAP) (skipn 4 SYMPTOM_MAP) "cough" "Pulmonology").
  - apply absent_keywords. vm_compute. reflexivity.
  - reflexivity.
  - exists "skin rash and a ", " since monday". reflexivity.
  - apply absent_keys. vm_compute. reflexivity.
Defined.

Lemma suggestions_are_first_three_survivors_witness :
  exists response,
    ChatService.sendMessage toLowerCase_ascii sampleHospitals "Heart trouble" None
    = mkPromise 800 (Fulfilled response)
    /\ option_map (map (@name string)) (suggestedHospitals response)
       = Some ["AIIMS"; "KEM Hospital"; "Manipal Hospital"].
Proof.
  destruct (suggestions_are_first_three_survivors string toLowerCase_ascii sampleHospitals
              "Heart trouble" None "Cardiology")
    as (response & Hsettled & _ & Hfound & _).
  - apply absent_keywords. vm_compute. reflexivity.
  - reflexivity.
  - exists response. split; [exact Hsettled|].
    rewrite Hfound; [reflexivity | discriminate].
Defined.

Lemma detected_locations_keep_duplicate_aliases_witness :
  ChatService.detectLocations toLowerCase_ascii sampleHospitals
    (toLowerCase_ascii "Skin rash in Delhi") = ["Delhi"; "Delhi"]
  /\ ~ NoDup (ChatService.detectLocations toLowerCase_ascii sampleHospitals
                (toLowerCase_ascii "Skin rash in Delhi")).
Proof.
  split; [reflexivity|].
  destruct (detected_locations_keep_duplicate_aliases string toLowerCase_ascii
              sampleHospitals "Skin rash in Delhi")
    as (collected & _ & _ & Hin & _ & Hdelhi & _ & _ & Hdup).
  apply (Hdup "Delhi").
  - apply Hin. split.
    + eexists. split; [left; reflexivity | left; reflexivity].
    + exists "skin rash in ", "". reflexivity.
  - apply Hdelhi. exists "skin rash in ", "". reflexivity.
Defined.

Lemma no_keyword_gives_fallback_witness :
  ChatService.sendMessage toLowerCase_ascii sampleHospitals "I am in Delhi" (Some "en")
  = mkPromise 800 (Fulfilled (mkChatResponse FALLBACK_TEXT None None None))
  /\ ChatService.detectLocations toLowerCase_ascii sampleHospitals
       (toLowerCase_ascii "I am in Delhi") <> [].
Proof.
  split; [|discriminate].
  apply (no_keyword_gives_fallback string toLowerCase_ascii sampleHospitals
           "I am in Delhi" (Some "en")).
  - apply absent_keywords. vm_compute. reflexivity.
  - apply absent_keys. vm_compute. reflexivity.
Defined.

Lemma action_is_ambulance_dispatch_only_witness :
  let response := sampleRespond "Please send an ambulance" in
  (forall a, action response = Some a ->
             a = AMBULANCE_DISPATCH /\ suggestedHospitals response = None)
  /\ action response <> Some BOOKING_REDIRECT.
Proof.
  apply (action_is_ambulance_dispatch_only string toLowerCase_ascii sampleHospitals
           "Please send an ambulance" None).
  reflexivity.
Defined.

Lemma rejected_submit_keeps_user_message_witness :
  let e := ErrorObject "Failed to fetch" in
  let final :=
    useMedicalChat.sendMessage (failingService e) "cough in Mumbai" "en" erroredState in
  messages final =
  [mkMessage user "fever in Delhi" None; mkMessage user "cough in Mumbai" None]
  /\ error final = Some "Failed to fetch"
  /\ isLoading final = false.
Proof.
  destruct (rejected_submit_keeps_user_message string
              (failingService (ErrorObject "Failed to fetch"))
              erroredState "cough in Mumbai" "en" (ErrorObject "Failed to fetch"))
    as (_ & Hmessages & Herror & Hloading & _).
  - reflexivity.
  - split; [exact Hmessages | split; [exact Herror | exact Hloading]].
Defined.

(** Reset clears neither a stored error nor a pending reply: after a
    rejected submission the error is still there once clearChat has run, and
    after a reset during a pending call the next submission does not start
    from an empty history, since the reply of the earlier call precedes it. *)
Lemma reset_clears_neither_error_nor_pending_reply :
  ~ (messages (useMedicalChat.clearChat erroredState) = []
     /\ error (useMedicalChat.clearChat erroredState) = None)
  /\ messages
       (useMedicalChat.run
          [useMedicalChat.Submit string "cough"; useMedicalChat.ClearChat string;
           useMedicalChat.Settle (Fulfilled (sampleRespond "cough"));
           useMedicalChat.Submit string "fever"]
          (useMedicalChat.initialState string))
     <> [mkMessage user "fever" None].
Proof.
  split.
  - intros [_ H]. discriminate H.
  - discriminate.
Qed.

(** * Further properties of the responder *)

Lemma includes_empty (s : string) : includes s "" = true.
Proof. rewrite includes_unfold. now destruct s. Qed.

Lemma append_empty_r (s : string) : (s ++ "")%string = s.
Proof. induction s as [|c s IH]; simpl; [reflexivity | now rewrite IH]. Qed.

Lemma includes_refl (s : string) : includes s s = true.
Proof. apply includes_spec. exists "", "". simpl. now rewrite append_empty_r. Qed.

Lemma filter_all_true (A : Type) (f : A -> bool) (l : list A) :
  (forall x, In x l -> f x = true) -> filter f l = l.
Proof.
  induction l as [|x l IH]; intros H; simpl; [reflexivity|].
  rewrite (H x (or_introl eq_refl)). f_equal. apply IH. intros y Hy. apply H. now right.
Qed.

Lemma In_firstn (A : Type) (n : nat) (l : list A) (x : A) :
  In x (firstn n l) -> In x l.
Proof.
  revert l. induction n as [|n IH]; intros [|a l]; simpl; try tauto.
  intros [-> | H]; [now left | right; now apply IH].
Qed.

Lemma fold_left_keep (A B : Type) (l : list B) (acc : A) :
  fold_left (fun a _ => a) l acc = acc.
Proof. revert acc. induction l as [|x l IH]; intros acc; simpl; auto. Qed.

Section ResponderExtras.

Variable Doctor : Type.
Variable toLowerCase : string -> string.
Variable MOCK_HOSPITALS : list (Hospital Doctor).

Local Abbreviation respond := (ChatService.respond toLowerCase MOCK_HOSPITALS).
Local Abbreviation sendMessage := (ChatService.sendMessage toLowerCase MOCK_HOSPITALS).
Local Abbreviation detectLocations :=
  (ChatService.detectLocations toLowerCase MOCK_HOSPITALS).
Local Abbreviation relevantHospitals :=
  (ChatService.relevantHospitals toLowerCase MOCK_HOSPITALS).
Local Abbreviation hasDept := (ChatService.hasDept toLowerCase).
Local Abbreviation inLocations := (ChatService.inLocations toLowerCase).

Lemma relevantHospitals_In (detectedDept : string) (locationsInMsg : list string)
  (h : Hospital Doctor) :
  In h (relevantHospitals detectedDept locationsInMsg) <->
  In h MOCK_HOSPITALS /\ hasDept detectedDept h = true
  /\ (locationsInMsg <> [] -> inLocations locationsInMsg h = true).
Proof.
  unfold ChatService.relevantHospitals. destruct locationsInMsg as [|loc locs].
  - simpl. rewrite filter_In. intuition congruence.
  - change (0 <? length (loc :: locs))%nat with true. cbv iota.
    rewrite !filter_In. split.
    + intros [[Hin Hd] Hl]. auto.
    + intros (Hin & Hd & Hl). repeat split; auto. apply Hl. discriminate.
Qed.

(** X1. The "Gather Doctors" pass returns the empty list for every
    department and every list of hospitals, and no response of the responder
    has a suggestedDoctors field. *)
Theorem doctors_are_never_suggested
  (message : string) (language : option string)
  (detectedDept : string) (relevant : list (Hospital Doctor)) :
  ChatService.gatherDoctors toLowerCase detectedDept relevant = []
  /\ exists response,
       sendMessage message language = mkPromise 800 (Fulfilled response)
       /\ suggestedDoctors response = None.
Proof.
  split.
  - unfold ChatService.gatherDoctors.
    enough (Hkeep : forall acc : list Doctor,
               fold_left
                 (fun suggested h =>
                    match find (fun d => includes (toLowerCase (dept_name d))
                                                  (toLowerCase detectedDept))
                               (departments h) with
                    | Some d =>
                        if (0 <? length (doctors d))%nat
                        then fold_left (fun acc _ => acc) (doctors d) suggested
                        else suggested
                    | None => suggested
                    end)
                 relevant acc = acc) by apply Hkeep.
    induction relevant as [|h rest IH]; intros acc; simpl; [reflexivity|].
    rewrite IH.
    destruct (find _ (departments h)) as [d|]; [|reflexivity].
    destruct (0 <? length (doctors d))%nat; [apply fold_left_keep | reflexivity].
  - exists (respond message). split; [apply sendMessage_settles|].
    destruct (respond_shape Doctor toLowerCase MOCK_HOSPITALS message)
      as [-> | ? ? ? ? -> | ? -> | ->]; reflexivity.
Qed.

Lemma respond_suggestions (message : string) (hospitals : list (Hospital Doctor)) :
  suggestedHospitals (respond message) = Some hospitals ->
  (1 <= length hospitals <= 3)%nat
  /\ action (respond message) = None
  /\ exists dept,
       ChatService.detectDept (toLowerCase message) = Some dept
       /\ forall h, In h hospitals -> In h MOCK_HOSPITALS /\ hasDept dept h = true.
Proof.
  destruct (ChatService.isEmergency (toLowerCase message)) eqn:He.
  { rewrite respond_emergency by assumption. discriminate. }
  destruct (ChatService.detectDept (toLowerCase message)) as [dept|] eqn:Hd.
  2:{ rewrite respond_fallback by assumption. discriminate. }
  rewrite (respond_dept _ _ _ _ _ He Hd). cbv zeta.
  destruct (relevantHospitals dept _) as [|h0 rest] eqn:Hrel; [discriminate|].
  remember (firstn 3 (h0 :: rest)) as top eqn:Htop.
  cbn [suggestedHospitals action]. intros [= <-].
  split; [|split; [reflexivity|]].
  - split.
    + rewrite Htop. simpl. lia.
    + rewrite Htop. apply firstn_le_length.
  - exists dept. split; [reflexivity|]. intros h Hin.
    rewrite Htop in Hin. apply In_firstn in Hin. rewrite <- Hrel in Hin.
    apply relevantHospitals_In in Hin. tauto.
Qed.

(** X2. Whenever a response carries suggestedHospitals, the list has between
    one and three hospitals, the response has no action, a department was
    detected, and every suggested hospital is a hospital of the directory
    with a department whose lower-cased name contains the lower-cased
    detected department. *)
Theorem suggestions_between_one_and_three_from_directory
  (message : string) (language : option string) (response : ChatResponse Doctor)
  (hospitals : list (Hospital Doctor)) :
  settled (sendMessage message language) = Fulfilled response ->
  suggestedHospitals response = Some hospitals ->
  (1 <= length hospitals <= 3)%nat
  /\ action response = None
  /\ exists dept,
       ChatService.detectDept (toLowerCase message) = Some dept
       /\ forall h, In h hospitals -> In h MOCK_HOSPITALS /\ hasDept dept h = true.
Proof.
  rewrite sendMessage_settles. simpl. intros [= <-]. apply respond_suggestions.
Qed.

(** X3. In a non-emergency message with a detected department, naming the
    state or the location of a directory hospital that has the department
    always yields suggestions: that hospital survives both filters, the
    place is among the detected locations, and the reply is the found reply
    with a non-empty list. *)
Theorem naming_a_hospital_place_yields_suggestions
  (message dept : string) (h : Hospital Doctor) (place : string) :
  (forall kw, In kw EMERGENCY_KEYWORDS -> ~ substring_of kw (toLowerCase message)) ->
  ChatService.detectDept (toLowerCase message) = Some dept ->
  In h MOCK_HOSPITALS ->
  hasDept dept h = true ->
  place = state h \/ place = location h ->
  substring_of (toLowerCase place) (toLowerCase message) ->
  let locationsInMsg := detectLocations (toLowerCase message) in
  let relevant := relevantHospitals dept locationsInMsg in
  In place locationsInMsg
  /\ In h relevant
  /\ respond message =
     mkChatResponse (found_text dept locationsInMsg) (Some (firstn 3 relevant)) None None
  /\ firstn 3 relevant <> [].
Proof.
  intros Hem Hd Hin Hdept Hplace Hsub locationsInMsg relevant.
  assert (Hloc : In place locationsInMsg).
  { subst locationsInMsg. rewrite detectLocations_aliases. apply in_or_app. left.
    apply filter_In. split.
    - apply allLocations_In. exists h. tauto.
    - now apply includes_spec. }
  assert (Hrel : In h relevant).
  { apply relevantHospitals_In. repeat split; [assumption | assumption|].
    intros _. unfold ChatService.inLocations. apply existsb_exists.
    exists place. split; [assumption|].
    destruct Hplace as [-> | ->]; rewrite includes_refl;
      [reflexivity | apply orb_true_r]. }
  split; [exact Hloc | split; [exact Hrel|]].
  rewrite (respond_dept _ _ _ _ _ (no_keyword_not_emergency _ Hem) Hd). cbv zeta.
  fold locationsInMsg. fold relevant.
  destruct relevant as [|h0 rest]; [destruct Hrel|].
  split; [reflexivity | discriminate].
Qed.

(** X4. The location filter only narrows: a hospital suggested for some
    detected locations is also relevant when no location is detected, and it
    stays relevant when more locations are detected. *)
Theorem location_filter_only_narrows
  (dept : string) (locs locs' : list string) (h : Hospital Doctor) :
  incl locs locs' ->
  locs <> [] ->
  In h (relevantHospitals dept locs) ->
  In h (relevantHospitals dept locs') /\ In h (relevantHospitals dept []).
Proof.
  intros Hincl Hne Hin. apply relevantHospitals_In in Hin as (HinH & Hd & Hl).
  specialize (Hl Hne). split; apply relevantHospitals_In;
    (split; [exact HinH | split; [exact Hd|]]).
  - intros _. unfold ChatService.inLocations in *.
    apply existsb_exists in Hl as (loc & Hloc & Hmatch).
    apply existsb_exists. exists loc. split; [now apply Hincl | assumption].
  - intros Hnil. now destruct Hnil.
Qed.

(** X5. With an empty directory no message gets suggestions, the only
    locations ever detected are the aliases, and a detected department is
    answered with the could-not-match text. *)
Theorem empty_directory_never_suggests (message : string) :
  suggestedHospitals (ChatService.respond toLowerCase (@nil (Hospital Doctor)) message)
  = None
  /\ ChatService.detectLocations toLowerCase (@nil (Hospital Doctor)) (toLowerCase message)
     = Spec.aliases (toLowerCase message)
  /\ forall dept,
       ChatService.isEmergency (toLowerCase message) = false ->
       ChatService.detectDept (toLowerCase message) = Some dept ->
       ChatService.respond toLowerCase (@nil (Hospital Doctor)) message
       = mkChatResponse (not_found_text dept) None None None.
Proof.
  assert (Hrel : forall dept locs,
             ChatService.relevantHospitals toLowerCase (@nil (Hospital Doctor)) dept locs
             = []).
  { intros dept locs. unfold ChatService.relevantHospitals. simpl.
    now destruct (0 <? length locs)%nat. }
  assert (Hdept : forall dept,
             ChatService.isEmergency (toLowerCase message) = false ->
             ChatService.detectDept (toLowerCase message) = Some dept ->
             ChatService.respond toLowerCase (@nil (Hospital Doctor)) message
             = mkChatResponse (not_found_text dept) None None None).
  { intros dept He Hd. rewrite (respond_dept _ _ _ _ _ He Hd). cbv zeta.
    now rewrite Hrel. }
  split; [|split; [|exact Hdept]].
  - destruct (ChatService.isEmergency (toLowerCase message)) eqn:He.
    + now rewrite respond_emergency.
    + destruct (ChatService.detectDept (toLowerCase message)) as [dept|] eqn:Hd.
      * now rewrite (Hdept dept).
      * now rewrite respond_fallback.
  - rewrite detectLocations_aliases. reflexivity.
Qed.

(** X6. The empty message (which lower-cases to itself) is answered with the
    fallback text, whatever the directory. *)
Theorem empty_message_gets_fallback (language : option string) :
  toLowerCase "" = "" ->
  sendMessage "" language =
  mkPromise 800 (Fulfilled (mkChatResponse FALLBACK_TEXT None None None)).
Proof.
  intros Hlow. rewrite sendMessage_settles. do 2 f_equal.
  apply respond_fallback; rewrite Hlow; reflexivity.
Qed.

(** X7. If a hospital of the directory has an empty state or location (and
    the empty string lower-cases to itself), the empty string is detected as
    a location in every message, every hospital passes the location filter,
    and the relevant hospitals are all those with the department. *)
Theorem empty_directory_value_matches_everything
  (h0 : Hospital Doctor) (lowerMsg dept : string) :
  toLowerCase "" = "" ->
  In h0 MOCK_HOSPITALS ->
  state h0 = "" \/ location h0 = "" ->
  In "" (detectLocations lowerMsg)
  /\ (forall h : Hospital Doctor, inLocations (detectLocations lowerMsg) h = true)
  /\ relevantHospitals dept (detectLocations lowerMsg)
     = filter (hasDept dept) MOCK_HOSPITALS.
Proof.
  intros Hlow Hin Hempty.
  assert (Hloc : In "" (detectLocations lowerMsg)).
  { rewrite detectLocations_aliases. apply in_or_app. left. apply filter_In. split.
    - apply allLocations_In. exists h0. split; [assumption|].
      destruct Hempty as [-> | ->]; auto.
    - rewrite Hlow. apply includes_empty. }
  assert (Hall : forall h : Hospital Doctor,
             inLocations (detectLocations lowerMsg) h = true).
  { intros h. unfold ChatService.inLocations. apply existsb_exists.
    exists "". split; [assumption|]. rewrite Hlow, includes_empty. reflexivity. }
  split; [exact Hloc | split; [exact Hall|]].
  unfold ChatService.relevantHospitals.
  destruct (detectLocations lowerMsg) as [|loc locs] eqn:E; [destruct Hloc|].
  change (0 <? length (loc :: locs))%nat with true. cbv iota.
  apply filter_all_true. intros h _. apply Hall.
Qed.

End ResponderExtras.

(** * Further properties of the session state *)

Section HookExtras.

Variable Doctor : Type.

Local Abbreviation State := (ChatState Doctor).
Local Abbreviation Event := (useMedicalChat.Event Doctor).

Lemma hook_step_messages (s : State) (ev : Event) :
  Trace.isClearChat ev = false ->
  exists suffix,
    messages (useMedicalChat.step s ev) = messages s ++ suffix
    /\ length suffix = if Trace.appends ev then 1 else 0.
Proof.
  destruct ev as [userMessage | [response | e] | |]; simpl; intros Hev;
    try discriminate.
  - now eexists.
  - now eexists.
  - exists []. now rewrite app_nil_r.
  - exists []. now rewrite app_nil_r.
Qed.

Lemma hook_run_messages (evs : list Event) (s : State) :
  forallb (fun ev => negb (Trace.isClearChat ev)) evs = true ->
  exists suffix,
    messages (useMedicalChat.run evs s) = messages s ++ suffix
    /\ length suffix = length (filter (@Trace.appends Doctor) evs).
Proof.
  unfold useMedicalChat.run. revert s.
  induction evs as [|ev evs IH]; intros s Hno; simpl.
  - exists []. now rewrite app_nil_r.
  - simpl in Hno. apply andb_true_iff in Hno as [Hev Hrest].
    apply negb_true_iff in Hev.
    destruct (hook_step_messages s ev Hev) as (first & Hfirst & Hlen).
    destruct (IH (useMedicalChat.step s ev) Hrest) as (more & Hmore & Hlen').
    exists (first ++ more). split.
    + now rewrite Hmore, Hfirst, app_assoc.
    + rewrite length_app, Hlen, Hlen'. now destruct (Trace.appends ev).
Qed.

(** X8. A submission, then any events other than a reset (further
    submissions, settlements, clearError), then the fulfilment of a promise:
    the list is the old one, the user's message, one message per appending
    event in between, and last the assistant's reply with the response's
    text and suggested hospitals. The loading flag is cleared, whatever
    else is pending. The fulfilment leaves the error as it was: null if no
    settlement in between was a rejection. *)
Theorem fulfilled_settlement_appends_reply_after_user_message
  (s : State) (userMessage : string) (between : list Event)
  (response : ChatResponse Doctor) :
  forallb (fun ev => negb (Trace.isClearChat ev)) between = true ->
  let before := useMedicalChat.run (useMedicalChat.Submit Doctor userMessage :: between) s in
  let final :=
    useMedicalChat.run
      (useMedicalChat.Submit Doctor userMessage
         :: between ++ [useMedicalChat.Settle (Fulfilled response)]) s in
  (exists mid,
      messages final =
      messages s ++ [mkMessage user userMessage None] ++ mid
      ++ [mkMessage assistant (text response) (suggestedHospitals response)]
      /\ length mid = length (filter (@Trace.appends Doctor) between))
  /\ isLoading final = false
  /\ error final = error before
  /\ ((forall e, ~ In (useMedicalChat.Settle (Rejected e)) between) -> error final = None).
Proof.
  intros Hno before final.
  assert (Hfinal : final
                   = useMedicalChat.sendMessage_settle (Fulfilled response) before).
  { subst final before. unfold useMedicalChat.run. simpl.
    now rewrite fold_left_app. }
  rewrite Hfinal, sendMessage_settle_fulfilled. simpl.
  assert (Hbefore : before
                    = useMedicalChat.run between
                        (useMedicalChat.sendMessage_begin userMessage s))
    by reflexivity.
  split; [|split; [reflexivity | split; [reflexivity|]]].
  - destruct (hook_run_messages between
                (useMedicalChat.sendMessage_begin userMessage s) Hno)
      as (mid & Hmid & Hlen).
    exists mid. split; [|exact Hlen].
    rewrite Hbefore, Hmid, sendMessage_begin_spec. simpl.
    now rewrite <- !app_assoc.
  - intros Hok. rewrite Hbefore. now apply run_fulfilled_no_error.
Qed.

(** X9. Without a reset the message list only grows: after any run of
    submissions, settlements and clearError, the list is the old one
    followed by one message per submission and one per fulfilled
    settlement; rejected settlements and clearError add nothing. *)
Theorem messages_only_grow_without_reset (evs : list Event) (s : State) :
  forallb (fun ev => negb (Trace.isClearChat ev)) evs = true ->
  exists suffix,
    messages (useMedicalChat.run evs s) = messages s ++ suffix
    /\ length suffix = length (filter (@Trace.appends Doctor) evs).
Proof.
  unfold useMedicalChat.run. revert s.
  induction evs as [|ev evs IH]; intros s Hno; simpl.
  - exists []. now rewrite app_nil_r.
  - simpl in Hno. apply andb_true_iff in Hno as [Hev Hrest].
    apply negb_true_iff in Hev.
    destruct (hook_step_messages s ev Hev) as (first & Hfirst & Hlen).
    destruct (IH (useMedicalChat.step s ev) Hrest) as (more & Hmore & Hlen').
    exists (first ++ more). split.
    + now rewrite Hmore, Hfirst, app_assoc.
    + rewrite length_app, Hlen, Hlen'. now destruct (Trace.appends ev).
Qed.

(** X10. A reset during a pending submission does not cancel it: after the
    reset the list is empty and the loading flag still set, and when the
    promise is fulfilled the reply is appended to the emptied list, which
    then holds the assistant's message alone. *)
Theorem reset_during_pending_submission_orphans_reply
  (s : State) (userMessage : string) (response : ChatResponse Doctor) :
  let pendingReset :=
    useMedicalChat.run
      [useMedicalChat.Submit Doctor userMessage; useMedicalChat.ClearChat Doctor] s in
  messages pendingReset = []
  /\ isLoading pendingReset = true
  /\ useMedicalChat.run
       [useMedicalChat.Submit Doctor userMessage; useMedicalChat.ClearChat Doctor;
        useMedicalChat.Settle (Fulfilled response)] s
     = mkChatState
         [mkMessage assistant (text response) (suggestedHospitals response)] false None.
Proof. repeat split. Qed.

End HookExtras.

(** * Properties of the page *)

Lemma turns_succ (n : nat) : Trace.turns (S n) = Trace.turns n ++ [user; assistant].
Proof.
  unfold Trace.turns.
  change (repeat [user; assistant] (S n))
    with ([user; assistant] :: repeat [user; assistant] n).
  rewrite repeat_cons, concat_app. simpl. reflexivity.
Qed.

Lemma nth_error_map_fst (A B : Type) (l1 l2 : list (A * B)) (i : nat) :
  map fst l1 = map fst l2 ->
  (nth_error l1 i = None /\ nth_error l2 i = None)
  \/ exists a b1 b2, nth_error l1 i = Some (a, b1) /\ nth_error l2 i = Some (a, b2).
Proof.
  revert l1 l2. induction i as [|i IH]; intros [|[a1 b1] l1] [|[a2 b2] l2] H;
    simpl in *; try discriminate; auto.
  - injection H as -> _. right. now exists a2, b1, b2.
  - injection H as _ H. now apply IH.
Qed.

Section PageExtras.

Variable Doctor : Type.
Variable trim : string -> string.
Variable service : string -> string -> Promise (ChatResponse Doctor).

Local Abbreviation Page := (DoctorBotPage.PageState Doctor).
Local Abbreviation step := (DoctorBotPage.step trim service).
Local Abbreviation run := (DoctorBotPage.run trim service).
Local Abbreviation StepKind := (Trace.StepKind trim service).

Lemma applySend_kind (p : Page) (ev : DoctorBotPage.PageEvent) :
  StepKind p ev
    (DoctorBotPage.applySend
       (ChatInput.handleSend trim (DoctorBotPage.r_input (DoctorBotPage.rendered p))
          (DoctorBotPage.r_disabled (DoctorBotPage.rendered p))) p).
Proof.
  unfold ChatInput.handleSend, DoctorBotPage.applySend.
  destruct (truthy (trim (DoctorBotPage.r_input (DoctorBotPage.rendered p)))) eqn:Ht;
    destruct (DoctorBotPage.r_disabled (DoctorBotPage.rendered p)) eqn:Hl; simpl.
  - now apply Trace.Idles.
  - now apply Trace.Sends with (DoctorBotPage.r_input (DoctorBotPage.rendered p)).
  - now apply Trace.Idles.
  - now apply Trace.Idles.
Qed.

Lemma step_kind (p : Page) (ev : DoctorBotPage.PageEvent) : StepKind p ev (step p ev).
Proof.
  destruct ev as [value | key shiftKey | | | code | i |]; simpl.
  - now apply Trace.Idles.
  - unfold ChatInput.onKeyDown.
    destruct ((key =? "Enter")%string && negb shiftKey).
    + apply applySend_kind.
    + now apply Trace.Idles.
  - destruct (ChatInput.buttonDisabled _ _ _).
    + now apply Trace.Idles.
    + apply applySend_kind.
  - destruct (DoctorBotPage.r_hasMessages (DoctorBotPage.rendered p)).
    + now apply Trace.Resets.
    + now apply Trace.Idles.
  - now apply Trace.Idles.
  - destruct (nth_error (DoctorBotPage.pending p) i) as [[userMessage lang]|] eqn:E.
    + now apply Trace.Settles with i userMessage lang.
    + now apply Trace.Idles.
  - now apply Trace.Idles.
Qed.

(** Only a render changes what the handlers read. *)
Lemma step_rendered (p : Page) (ev : DoctorBotPage.PageEvent) :
  DoctorBotPage.rendered (step p ev) =
  match ev with
  | DoctorBotPage.Render => DoctorBotPage.render p
  | _ => DoctorBotPage.rendered p
  end.
Proof.
  destruct ev as [value | key shiftKey | | | code | i |]; simpl; try reflexivity.
  - unfold ChatInput.onKeyDown, ChatInput.handleSend, DoctorBotPage.applySend.
    destruct ((key =? "Enter")%string && negb shiftKey); [|reflexivity].
    destruct (truthy _ && negb _); reflexivity.
  - unfold ChatInput.handleSend, DoctorBotPage.applySend.
    destruct (ChatInput.buttonDisabled _ _ _); [reflexivity|].
    destruct (truthy _ && negb _); reflexivity.
  - destruct (DoctorBotPage.r_hasMessages _); reflexivity.
  - destruct (nth_error _ i) as [[userMessage lang]|]; reflexivity.
Qed.

(** An event and the render after it keep the page serialized. *)
Lemma step_render_serialized (p : Page) (ev : DoctorBotPage.PageEvent) :
  Trace.serialized p -> Trace.serialized (step (step p ev) DoctorBotPage.Render).
Proof.
  unfold Trace.serialized. intros [Hp Hd]. split; [|reflexivity].
  change (DoctorBotPage.pending (step (step p ev) DoctorBotPage.Render))
    with (DoctorBotPage.pending (step p ev)).
  change (DoctorBotPage.chat (step (step p ev) DoctorBotPage.Render))
    with (DoctorBotPage.chat (step p ev)).
  destruct (step_kind p ev)
    as [Hc Hq | typed _ Hl Ht Hc Hq | _ Hc Hq | i m l Hn Hc Hq]; rewrite Hc, Hq.
  - exact Hp.
  - rewrite Hl in Hd. rewrite <- Hd in Hp. rewrite length_app, Hp. reflexivity.
  - exact Hp.
  - assert (Hlt : (i < length (DoctorBotPage.pending p))%nat).
    { apply nth_error_Some. congruence. }
    destruct (isLoading (DoctorBotPage.chat p)); [|lia].
    destruct (DoctorBotPage.pending p) as [|c [|c' rest]]; simpl in Hp, Hlt; try lia.
    assert (i = 0)%nat as -> by lia. destruct (settled (service m l)); reflexivity.
Qed.

Lemma run_withRenders_serialized (evs : list DoctorBotPage.PageEvent) (p : Page) :
  Trace.serialized p -> Trace.serialized (run (Trace.withRenders evs) p).
Proof.
  unfold DoctorBotPage.run. revert p.
  induction evs as [|ev evs IH]; intros p Hp; simpl; [exact Hp|].
  apply IH, step_render_serialized, Hp.
Qed.

(** X12. If the page renders after every event, it serializes submissions:
    in every state so reached from the initial page at most one responder
    call is pending, one is pending exactly when the loading flag is set,
    and while it is set clicking send or pressing Enter changes nothing.
    The renders are needed: the handlers read the input and the disabled
    flag of the last render, so after one render of a non-blank input two
    presses of Enter send it twice and leave two calls pending. *)
Theorem page_serializes_submissions_between_renders
  (evs : list DoctorBotPage.PageEvent) :
  let p := run (Trace.withRenders evs) (DoctorBotPage.initialPage Doctor) in
  length (DoctorBotPage.pending p) = (if isLoading (DoctorBotPage.chat p) then 1 else 0)
  /\ (isLoading (DoctorBotPage.chat p) = true ->
      forall key shiftKey,
        step p DoctorBotPage.ClickSend = p
        /\ step p (DoctorBotPage.KeyDown key shiftKey) = p)
  /\ forall typed,
       truthy (trim typed) = true ->
       DoctorBotPage.pending
         (run [DoctorBotPage.Change typed; DoctorBotPage.Render;
               DoctorBotPage.KeyDown "Enter" false; DoctorBotPage.KeyDown "Enter" false]
              (DoctorBotPage.initialPage Doctor))
       = [(trim typed, "en"); (trim typed, "en")].
Proof.
  intros p.
  assert (Hser : Trace.serialized p).
  { apply run_withRenders_serialized. split; reflexivity. }
  destruct Hser as [Hlen Hd]. split; [exact Hlen | split].
  - intros Hl key shiftKey. simpl.
    unfold ChatInput.buttonDisabled, ChatInput.onKeyDown, ChatInput.handleSend.
    rewrite Hd, Hl, andb_false_r. simpl.
    split; [reflexivity|].
    destruct ((key =? "Enter")%string && negb shiftKey); reflexivity.
  - intros typed Ht. simpl.
    unfold ChatInput.onKeyDown, ChatInput.handleSend, DoctorBotPage.applySend.
    simpl. rewrite Ht. simpl. rewrite Ht. reflexivity.
Qed.

Lemma step_messages_Forall (P : Message Doctor -> Prop)
  (p : Page) (ev : DoctorBotPage.PageEvent) :
  (forall typed, truthy (trim typed) = true -> P (mkMessage user (trim typed) None)) ->
  (forall userMessage lang response,
      settled (service userMessage lang) = Fulfilled response ->
      P (mkMessage assistant (text response) (suggestedHospitals response))) ->
  Forall P (messages (DoctorBotPage.chat p)) ->
  Forall P (messages (DoctorBotPage.chat (step p ev))).
Proof.
  intros Huser Hreply Hp.
  destruct (step_kind p ev)
    as [Hc _ | typed _ _ Ht Hc _ | _ Hc _ | i m l _ Hc _]; rewrite Hc.
  - exact Hp.
  - simpl. apply Forall_app. split; [exact Hp|]. constructor; [|constructor].
    now apply Huser.
  - simpl. constructor.
  - destruct (settled (service m l)) as [response | e] eqn:E; simpl; [|exact Hp].
    apply Forall_app. split; [exact Hp|]. constructor; [|constructor].
    now apply Hreply with m l.
Qed.

Lemma run_messages_Forall (P : Message Doctor -> Prop)
  (evs : list DoctorBotPage.PageEvent) (p : Page) :
  (forall typed, truthy (trim typed) = true -> P (mkMessage user (trim typed) None)) ->
  (forall userMessage lang response,
      settled (service userMessage lang) = Fulfilled response ->
      P (mkMessage assistant (text response) (suggestedHospitals response))) ->
  Forall P (messages (DoctorBotPage.chat p)) ->
  Forall P (messages (DoctorBotPage.chat (run evs p))).
Proof.
  intros Huser Hreply. unfold DoctorBotPage.run. revert p.
  induction evs as [|ev evs IH]; intros p Hp; simpl; [exact Hp|].
  apply IH, step_messages_Forall; assumption.
Qed.

(** X11. When a pending promise is rejected, the page stores the error
    string, but the banner shows it only if it is not empty: an Error with
    an empty message leaves no banner, any other Error shows its message,
    and a thrown value that is not an Error shows the generic text. *)
Theorem error_banner_after_rejection
  (p : Page) (i : nat) (userMessage lang : string) (e : Thrown) :
  nth_error (DoctorBotPage.pending p) i = Some (userMessage, lang) ->
  settled (service userMessage lang) = Rejected e ->
  let p' := step p (DoctorBotPage.PromiseSettles i) in
  error (DoctorBotPage.chat p') = Some (useMedicalChat.errorMessage e)
  /\ messages (DoctorBotPage.chat p') = messages (DoctorBotPage.chat p)
  /\ DoctorBotPage.errorBanner p' =
     match e with
     | ErrorObject "" => None
     | ErrorObject message => Some message
     | OtherValue => Some GENERIC_ERROR
     end.
Proof.
  intros Hn Hrej. simpl. rewrite Hn, Hrej. unfold DoctorBotPage.errorBanner. simpl.
  repeat split. destruct e as [[|c message]|]; reflexivity.
Qed.

Hypothesis trim_empty : trim "" = "".

Local Abbreviation typed_only := (@Trace.typed_only Doctor trim).

Lemma typed_only_incl (allowed allowed' : list string) (p : Page) :
  incl allowed allowed' -> typed_only allowed p -> typed_only allowed' p.
Proof.
  intros Hincl (Hi & Hr & Hm). repeat split.
  - destruct Hi; auto.
  - destruct Hr; auto.
  - eapply Forall_impl; [|exact Hm]. intros m H Hrole.
    destruct (H Hrole) as (Ht & Hs & typed & Hin & Hc). eauto 6.
Qed.

Lemma applySend_typed_only (allowed : list string) (p : Page) :
  typed_only allowed p ->
  typed_only allowed
    (DoctorBotPage.applySend
       (ChatInput.handleSend trim (DoctorBotPage.r_input (DoctorBotPage.rendered p))
          (DoctorBotPage.r_disabled (DoctorBotPage.rendered p))) p).
Proof.
  intros Hp. pose proof Hp as (Hi & Hr & Hm).
  unfold ChatInput.handleSend, DoctorBotPage.applySend.
  destruct (truthy (trim (DoctorBotPage.r_input (DoctorBotPage.rendered p)))) eqn:Ht;
    [|exact Hp].
  destruct (DoctorBotPage.r_disabled (DoctorBotPage.rendered p)); [exact Hp|].
  simpl. repeat split; [now left | exact Hr|].
  apply Forall_app. split; [exact Hm|]. constructor; [|constructor].
  intros _. simpl. repeat split; [exact Ht|].
  destruct Hr as [Hr | Hr].
  - rewrite Hr, trim_empty in Ht. discriminate Ht.
  - eauto.
Qed.

Lemma step_typed_only (allowed : list string) (p : Page) (ev : DoctorBotPage.PageEvent) :
  typed_only allowed p -> typed_only (allowed ++ Trace.typedValues [ev]) (step p ev).
Proof.
  intros Hp.
  assert (Hmono : typed_only (allowed ++ Trace.typedValues [ev]) p)
    by (eapply typed_only_incl; [apply incl_appl, incl_refl | exact Hp]).
  clear Hp. pose proof Hmono as (Hi & Hr & Hm).
  destruct ev as [value | key shiftKey | | | code | i |]; simpl.
  - repeat split; [|exact Hr | exact Hm]. right. apply in_or_app. right. now left.
  - unfold ChatInput.onKeyDown.
    destruct ((key =? "Enter")%string && negb shiftKey); [|exact Hmono].
    now apply applySend_typed_only.
  - destruct (ChatInput.buttonDisabled _ _ _); [exact Hmono|].
    now apply applySend_typed_only.
  - destruct (DoctorBotPage.r_hasMessages _); [|exact Hmono].
    repeat split; [exact Hi | exact Hr | constructor].
  - repeat split; assumption.
  - destruct (nth_error _ i) as [[userMessage lang]|]; [|exact Hmono].
    repeat split; [exact Hi | exact Hr|]. simpl.
    destruct (settled (service userMessage lang)) as [response | e]; simpl;
      [|exact Hm].
    apply Forall_app. split; [exact Hm|]. constructor; [|constructor].
    simpl. discriminate.
  - repeat split; [exact Hi | exact Hi | exact Hm].
Qed.

Lemma run_typed_only (evs : list DoctorBotPage.PageEvent) (allowed : list string)
  (p : Page) :
  typed_only allowed p -> typed_only (allowed ++ Trace.typedValues evs) (run evs p).
Proof.
  unfold DoctorBotPage.run. revert allowed p.
  induction evs as [|ev evs IH]; intros allowed p Hp.
  - unfold Trace.typedValues. simpl. now rewrite app_nil_r.
  - assert (E : allowed ++ Trace.typedValues (ev :: evs)
                = (allowed ++ Trace.typedValues [ev]) ++ Trace.typedValues evs).
    { unfold Trace.typedValues. simpl. now rewrite app_nil_r, app_assoc. }
    rewrite E. simpl. apply IH, step_typed_only, Hp.
Qed.

Lemma typedValues_In (evs : list DoctorBotPage.PageEvent) (typed : string) :
  In typed (Trace.typedValues evs) <-> In (DoctorBotPage.Change typed) evs.
Proof.
  unfold Trace.typedValues. rewrite in_flat_map. split.
  - intros (ev & Hev & Hin). destruct ev; simpl in Hin; try tauto.
    destruct Hin as [<- | []]. exact Hev.
  - intros Hin. exists (DoctorBotPage.Change typed). split; [exact Hin | now left].
Qed.

(** X13. Given that the empty string trims to itself, in every state
    reached from the initial page by any events, rendered or not, each user
    message in the list is not empty, carries no suggestions, and is the
    trimmed text of a value that a Change event of the run put into the
    textarea. *)
Theorem page_user_messages_are_trimmed_typed_text
  (evs : list DoctorBotPage.PageEvent) (msg : Message Doctor) :
  In msg (messages (DoctorBotPage.chat (run evs (DoctorBotPage.initialPage Doctor)))) ->
  role msg = user ->
  truthy (content msg) = true
  /\ suggestions msg = None
  /\ exists typed, In (DoctorBotPage.Change typed) evs /\ content msg = trim typed.
Proof.
  intros Hin Hrole.
  assert (Hinit : typed_only [] (DoctorBotPage.initialPage Doctor)).
  { repeat split; [now left | now left | constructor]. }
  destruct (run_typed_only evs [] _ Hinit) as (_ & _ & Hm).
  rewrite Forall_forall in Hm.
  destruct (Hm msg Hin Hrole) as (Ht & Hs & typed & Htyped & Hc).
  repeat split; [exact Ht | exact Hs|].
  exists typed. split; [|exact Hc]. now apply typedValues_In.
Qed.

End PageExtras.

Section PageTurns.

Variable Doctor : Type.
Variable trim : string -> string.
Variable service : string -> string -> Promise (ChatResponse Doctor).
Hypothesis service_fulfils :
  forall userMessage lang, exists response,
    settled (service userMessage lang) = Fulfilled response.

Local Abbreviation Page := (DoctorBotPage.PageState Doctor).
Local Abbreviation step := (DoctorBotPage.step trim service).
Local Abbreviation run := (DoctorBotPage.run trim service).

Lemma step_render_turns (p : Page) (ev : DoctorBotPage.PageEvent) (n : nat) :
  Trace.isClickReset ev = false ->
  Trace.serialized p ->
  map (@role Doctor) (messages (DoctorBotPage.chat p)) =
    Trace.turns n ++ (if isLoading (DoctorBotPage.chat p) then [user] else []) ->
  exists n',
    map (@role Doctor) (messages (DoctorBotPage.chat (step p ev))) =
    Trace.turns n' ++ (if isLoading (DoctorBotPage.chat (step p ev)) then [user] else []).
Proof.
  intros Hev [Hlen Hd] Hn.
  destruct (step_kind Doctor trim service p ev)
    as [Hc _ | typed _ Hl _ Hc _ | Hr _ _ | i m l Hnth Hc _].
  - rewrite Hc. now exists n.
  - rewrite Hc. simpl. rewrite Hl in Hd. rewrite <- Hd, app_nil_r in Hn.
    exists n. now rewrite map_app, Hn.
  - subst ev. discriminate Hev.
  - rewrite Hc.
    assert (Hlt : (i < length (DoctorBotPage.pending p))%nat).
    { apply nth_error_Some. congruence. }
    destruct (isLoading (DoctorBotPage.chat p)); [|lia].
    destruct (service_fulfils m l) as [response ->]. simpl.
    exists (S n). rewrite map_app, Hn, turns_succ, app_nil_r, <- app_assoc.
    reflexivity.
Qed.

(** X17. If the page renders after every event, the responder never rejects
    and the chat is never reset, the message list of every reached state
    alternates user and assistant messages, starting with the user, and ends
    with a user message exactly when the loading flag is set, which is also
    when a render shows the typing indicator. *)
Theorem page_alternates_user_and_assistant_between_renders
  (evs : list DoctorBotPage.PageEvent) :
  forallb (fun ev => negb (Trace.isClickReset ev)) evs = true ->
  let p := run (Trace.withRenders evs) (DoctorBotPage.initialPage Doctor) in
  (exists n, map (@role Doctor) (messages (DoctorBotPage.chat p)) =
             Trace.turns n ++ (if isLoading (DoctorBotPage.chat p) then [user] else []))
  /\ DoctorBotPage.showsTyping p = isLoading (DoctorBotPage.chat p).
Proof.
  intros Hno p.
  assert (Hinv : Trace.serialized p
                 /\ exists n, map (@role Doctor) (messages (DoctorBotPage.chat p)) =
                              Trace.turns n
                              ++ (if isLoading (DoctorBotPage.chat p) then [user] else [])).
  { subst p. unfold DoctorBotPage.run.
    assert (Hinit : Trace.serialized (DoctorBotPage.initialPage Doctor)
                    /\ exists n,
                         map (@role Doctor)
                             (messages (DoctorBotPage.chat (DoctorBotPage.initialPage Doctor)))
                         = Trace.turns n
                           ++ (if isLoading
                                    (DoctorBotPage.chat (DoctorBotPage.initialPage Doctor))
                               then [user] else [])).
    { split; [split; reflexivity | now exists 0%nat]. }
    revert Hinit. generalize (DoctorBotPage.initialPage Doctor) as q.
    induction evs as [|ev evs IH]; intros q Hq; [exact Hq|].
    simpl in Hno. apply andb_true_iff in Hno as [Hev Hrest].
    apply negb_true_iff in Hev.
    change (fold_left step (Trace.withRenders (ev :: evs)) q)
      with (fold_left step (Trace.withRenders evs)
              (step (step q ev) DoctorBotPage.Render)).
    apply (IH Hrest). destruct Hq as [Hser [n Hn]].
    split; [now apply step_render_serialized|].
    exact (step_render_turns q ev n Hev Hser Hn). }
  destruct Hinv as [_ [n Hn]]. split; [now exists n|].
  unfold DoctorBotPage.showsTyping, DoctorBotPage.showsWelcome.
  destruct (isLoading (DoctorBotPage.chat p)); [|apply andb_false_r].
  destruct (messages (DoctorBotPage.chat p)); [|reflexivity].
  simpl in Hn. destruct (Trace.turns n); discriminate Hn.
Qed.

End PageTurns.

Section InputExtras.

Variable trim : string -> string.

(** X16. handleSend calls onSend exactly when the send button is enabled,
    that is when the input is not disabled and its trimmed text is not
    empty; it then sends the trimmed text and empties the input, and
    otherwise leaves the input as typed. Shift+Enter and every key other
    than Enter send nothing. *)
Theorem handleSend_sends_exactly_when_button_enabled (input : string) (disabled : bool) :
  (fst (ChatInput.handleSend trim input disabled) = None <->
   ChatInput.buttonDisabled trim input disabled = true)
  /\ (forall mt next,
         ChatInput.handleSend trim input disabled = (Some mt, next) ->
         mt = trim input /\ truthy mt = true /\ disabled = false /\ next = "")
  /\ (forall next, ChatInput.handleSend trim input disabled = (None, next) -> next = input)
  /\ (forall key, ChatInput.onKeyDown trim key true input disabled = (None, input))
  /\ (forall key shiftKey,
         key <> "Enter" ->
         ChatInput.onKeyDown trim key shiftKey input disabled = (None, input)).
Proof.
  unfold ChatInput.handleSend, ChatInput.buttonDisabled, ChatInput.onKeyDown.
  destruct (truthy (trim input)) eqn:Ht, disabled; simpl;
    (split; [split; congruence|]);
    (split; [intros mt next [= <- <-] || intros mt next [=]; auto|]);
    (split; [intros next [= <-] || intros next [=]; reflexivity|]);
    (split; [intros key; now rewrite andb_false_r|]);
    intros key shiftKey Hkey; apply String.eqb_neq in Hkey; now rewrite Hkey.
Qed.

End InputExtras.

Section PageLanguage.

Variable Doctor : Type.
Variable trim : string -> string.
Variable service : string -> string -> Promise (ChatResponse Doctor).
Hypothesis service_ignores_language :
  forall userMessage l1 l2, service userMessage l1 = service userMessage l2.

Local Abbreviation Page := (DoctorBotPage.PageState Doctor).
Local Abbreviation step := (DoctorBotPage.step trim service).
Local Abbreviation run := (DoctorBotPage.run trim service).
Local Abbreviation same_but_language := (@Trace.same_but_language Doctor).

Lemma applySend_same_but_language (sent : option string * string) (p q : Page) :
  same_but_language p q ->
  same_but_language (DoctorBotPage.applySend sent p) (DoctorBotPage.applySend sent q).
Proof.
  intros Hpq. pose proof Hpq as (Hc & Hi & Hp & Hri & Hrd & Hrm).
  unfold DoctorBotPage.applySend.
  destruct (fst sent) as [mt|]; [|exact Hpq].
  unfold Trace.same_but_language. simpl.
  rewrite Hc, !map_app, Hp. auto 7.
Qed.

Lemma step_same_but_language (p q : Page) (ev : DoctorBotPage.PageEvent) :
  same_but_language p q -> same_but_language (step p ev) (step q ev).
Proof.
  intros Hpq. pose proof Hpq as (Hc & Hi & Hp & Hri & Hrd & Hrm).
  destruct ev as [value | key shiftKey | | | code | i |];
    [simpl | simpl | simpl | simpl | simpl | cbn -[skipn firstn nth_error] | simpl].
  - unfold Trace.same_but_language. simpl. repeat split; congruence.
  - rewrite Hri, Hrd. now apply applySend_same_but_language.
  - rewrite Hri, Hrd.
    destruct (ChatInput.buttonDisabled trim
                (DoctorBotPage.r_input (DoctorBotPage.rendered q))
                (DoctorBotPage.r_disabled (DoctorBotPage.rendered q))); [exact Hpq|].
    now apply applySend_same_but_language.
  - rewrite Hrm.
    destruct (DoctorBotPage.r_hasMessages (DoctorBotPage.rendered q)) eqn:Hq;
      [|exact Hpq].
    unfold Trace.same_but_language. simpl. rewrite Hc. repeat split; congruence.
  - unfold Trace.same_but_language. simpl. repeat split; congruence.
  - destruct (nth_error_map_fst _ _ _ _ i Hp) as [[-> ->] | (m & l1 & l2 & -> & ->)];
      [exact Hpq|].
    unfold Trace.same_but_language.
    cbn [DoctorBotPage.chat DoctorBotPage.input DoctorBotPage.pending
         DoctorBotPage.rendered].
    rewrite Hc, (service_ignores_language m l1 l2).
    rewrite !map_app, <- !firstn_map, <- !skipn_map, Hp. repeat split; congruence.
  - unfold Trace.same_but_language. simpl. rewrite Hc, Hi. repeat split; congruence.
Qed.

(** X15. For a responder that ignores the language, as the shipped one
    does, selecting languages never changes the conversation: the chat
    state, the input and the messages of the pending calls after any run
    are those of the same run with the language selections left out. *)
Theorem page_language_selection_does_not_change_chat
  (evs : list DoctorBotPage.PageEvent) :
  let p := run evs (DoctorBotPage.initialPage Doctor) in
  let q := run (filter (fun ev => negb (Trace.isSelectLanguage ev)) evs)
             (DoctorBotPage.initialPage Doctor) in
  DoctorBotPage.chat p = DoctorBotPage.chat q
  /\ DoctorBotPage.input p = DoctorBotPage.input q
  /\ map fst (DoctorBotPage.pending p) = map fst (DoctorBotPage.pending q).
Proof.
  cbv zeta.
  enough (H : same_but_language
                (run evs (DoctorBotPage.initialPage Doctor))
                (run (filter (fun ev => negb (Trace.isSelectLanguage ev)) evs)
                     (DoctorBotPage.initialPage Doctor))).
  { destruct H as (Hc & Hi & Hp & _). auto. }
  assert (Hinit : same_but_language (DoctorBotPage.initialPage Doctor)
                                    (DoctorBotPage.initialPage Doctor))
    by (unfold Trace.same_but_language; auto 7).
  revert Hinit. unfold DoctorBotPage.run.
  generalize (DoctorBotPage.initialPage Doctor) at 1 3 as p.
  generalize (DoctorBotPage.initialPage Doctor) as q.
  induction evs as [|ev evs IH]; intros q p Hpq; simpl; [exact Hpq|].
  destruct (Trace.isSelectLanguage ev) eqn:E; simpl.
  - apply IH. destruct ev; try discriminate E.
    destruct Hpq as (Hc & Hi & Hp & Hri & Hrd & Hrm).
    unfold Trace.same_but_language. simpl. auto 7.
  - apply IH. now apply step_same_but_language.
Qed.

End PageLanguage.

Section PageDirectory.

Variable Doctor : Type.
Variable trim : string -> string.
Variable toLowerCase : string -> string.
Variable MOCK_HOSPITALS : list (Hospital Doctor).

Local Abbreviation run :=
  (DoctorBotPage.run trim (chatService toLowerCase MOCK_HOSPITALS)).

(** X14. With the shipped responder, every message of every state reached
    from the initial page draws at most three hospital cards, draws at least
    one whenever it carries suggestions, and every card is a hospital of the
    directory; booking it passes that hospital to onNavigate with the view
    BOOKING, or dispatches navigate-to-booking when onNavigate is absent. *)
Theorem page_cards_come_from_directory
  (evs : list DoctorBotPage.PageEvent) (msg : Message Doctor) :
  In msg (messages (DoctorBotPage.chat (run evs (DoctorBotPage.initialPage Doctor)))) ->
  (length (ChatMessage.cards msg) <= 3)%nat
  /\ (suggestions msg <> None -> ChatMessage.cards msg <> [])
  /\ forall h, In h (ChatMessage.cards msg) ->
               In h MOCK_HOSPITALS
               /\ DoctorBotPage.handleBook true h = CallOnNavigate BOOKING h
               /\ DoctorBotPage.handleBook false h
                  = DispatchWindowEvent "navigate-to-booking" h.
Proof.
  intros Hin.
  enough (H : Forall (fun m => (length (ChatMessage.cards m) <= 3)%nat
                               /\ (suggestions m <> None -> ChatMessage.cards m <> [])
                               /\ forall h, In h (ChatMessage.cards m) ->
                                            In h MOCK_HOSPITALS)
                     (messages (DoctorBotPage.chat
                                  (run evs (DoctorBotPage.initialPage Doctor))))).
  { rewrite Forall_forall in H. destruct (H msg Hin) as (Hlen & Hsome & Hdir).
    split; [exact Hlen | split; [exact Hsome|]].
    intros h Hh. split; [now apply Hdir | split; reflexivity]. }
  apply run_messages_Forall.
  - intros typed _. unfold ChatMessage.cards. simpl.
    split; [lia | split; [congruence | intros h []]].
  - intros m l response Hsettled. unfold chatService in Hsettled.
    rewrite sendMessage_settles in Hsettled. simpl in Hsettled.
    injection Hsettled as <-. unfold ChatMessage.cards. simpl.
    destruct (suggestedHospitals (ChatService.respond toLowerCase MOCK_HOSPITALS m))
      as [hospitals|] eqn:E.
    + destruct (respond_suggestions _ _ _ _ _ E) as ([Hlo Hhi] & _ & dept & _ & Hdir).
      destruct hospitals as [|h0 rest]; [simpl in Hlo; lia|].
      change (0 <? length (h0 :: rest))%nat with true. cbv iota.
      split; [exact Hhi | split; [discriminate|]].
      intros h Hh. now apply Hdir.
    + split; [simpl; lia | split; [congruence | intros h []]].
  - constructor.
Qed.

End PageDirectory.

(** * The responder on JavaScript values *)

Lemma Forall2_firstn (A B : Type) (R : A -> B -> Prop) (n : nat)
  (l : list A) (l' : list B) :
  Forall2 R l l' -> Forall2 R (firstn n l) (firstn n l').
Proof.
  intros H. revert n. induction H as [|x y l l' Hxy _ IH]; intros [|n]; simpl;
    constructor; auto.
Qed.

Lemma Js_someM_Forall2 (A B : Type) (R : A -> B -> Prop)
  (f : A -> Js.Completion bool) (g : B -> bool) (l : list A) (l' : list B) :
  Forall2 R l l' ->
  (forall x y, R x y -> f x = Js.Normal (g y)) ->
  Js.someM f l = Js.Normal (existsb g l').
Proof.
  intros H Hf. induction H as [|x y l l' Hxy _ IH]; simpl; [reflexivity|].
  rewrite (Hf x y Hxy). simpl. destruct (g y); [reflexivity | exact IH].
Qed.

Lemma Js_someM_pure (A : Type) (f : A -> Js.Completion bool) (g : A -> bool)
  (l : list A) :
  (forall x, f x = Js.Normal (g x)) -> Js.someM f l = Js.Normal (existsb g l).
Proof.
  intros Hf. induction l as [|x l IH]; simpl; [reflexivity|].
  rewrite Hf. simpl. destruct (g x); [reflexivity | exact IH].
Qed.

Lemma Js_filterM_Forall2 (A B : Type) (R : A -> B -> Prop)
  (f : A -> Js.Completion bool) (g : B -> bool) (l : list A) (l' : list B) :
  Forall2 R l l' ->
  (forall x y, R x y -> f x = Js.Normal (g y)) ->
  exists kept, Js.filterM f l = Js.Normal kept /\ Forall2 R kept (filter g l').
Proof.
  intros H Hf. induction H as [|x y l l' Hxy _ (kept & Hkept & HR)]; simpl.
  - exists []. split; [reflexivity | constructor].
  - rewrite (Hf x y Hxy). simpl. rewrite Hkept. simpl.
    destruct (g y); eexists; (split; [reflexivity|]); [constructor|]; assumption.
Qed.

Lemma Js_forEachM_Forall2 (A B : Type) (R : A -> B -> Prop)
  (f : A -> Js.Completion unit) (l : list A) (l' : list B) :
  Forall2 R l l' ->
  (forall x y, R x y -> f x = Js.Normal tt) ->
  Js.forEachM f l = Js.Normal tt.
Proof.
  intros H Hf. induction H as [|x y l l' Hxy _ IH]; simpl; [reflexivity|].
  rewrite (Hf x y Hxy). simpl. exact IH.
Qed.

Lemma Js_forEachM_skip (A : Type) (l : list A) :
  Js.forEachM (fun _ => Js.Normal tt) l = Js.Normal tt.
Proof. induction l as [|x l IH]; simpl; [reflexivity | exact IH]. Qed.

Lemma Js_Set_of_strings (xs : list string) :
  Js.Set_of (map Js.Str xs) = map Js.Str (Set_of xs).
Proof.
  unfold Js.Set_of, Set_of. change (@nil Js.Value) with (map Js.Str []).
  generalize (@nil string) as s. induction xs as [|x xs IH]; intros s; simpl;
    [reflexivity|].
  rewrite <- IH. f_equal. unfold Js.Set_add, Set_add.
  replace (existsb (Js.sameValueZero (Js.Str x)) (map Js.Str s))
    with (existsb (String.eqb x) s).
  - destruct (existsb (String.eqb x) s); [reflexivity|]. now rewrite map_app.
  - clear. induction s as [|y s IH]; simpl; [reflexivity | now rewrite IH].
Qed.

Section JsResponder.

Variable toLowerCase : string -> string.
Variable gtZero : Js.Value -> bool.
Variable typeErrorMessage : Js.Value -> string -> string.

Local Abbreviation isHospital := (@Js.isHospital).
Local Abbreviation isDepartment := (@Js.isDepartment).
Local Abbreviation getField := (Js.getField typeErrorMessage).

Lemma Js_collectLocations_strings (lowerMsg : string) (locs acc : list string) :
  Js.collectLocations toLowerCase typeErrorMessage lowerMsg (map Js.Str locs) acc
  = Js.Normal (acc ++ filter (fun loc => includes lowerMsg (toLowerCase loc)) locs).
Proof.
  revert acc. induction locs as [|loc locs IH]; intros acc; simpl.
  - now rewrite app_nil_r.
  - rewrite IH. destruct (includes lowerMsg (toLowerCase loc)); [|reflexivity].
    now rewrite <- app_assoc.
Qed.

Lemma Js_mapM_field (key : Js.Key) (field : Hospital Js.Value -> string)
  (items : list Js.Value) (hospitals : list (Hospital Js.Value)) :
  (forall v h, isHospital v h -> getField v key = Js.Normal (Js.Str (field h))) ->
  Forall2 isHospital items hospitals ->
  Js.mapM (fun h => getField h key) items
  = Js.Normal (map Js.Str (map field hospitals)).
Proof.
  intros Hf H. induction H as [|v h items hospitals Hvh _ IH]; simpl; [reflexivity|].
  rewrite (Hf v h Hvh). simpl. rewrite IH. reflexivity.
Qed.

Lemma Js_deptMatches_department (detectedDept : string) (v : Js.Value)
  (d : Department Js.Value) :
  isDepartment v d ->
  Js.deptMatches toLowerCase typeErrorMessage detectedDept v
  = Js.Normal (includes (toLowerCase (dept_name d)) (toLowerCase detectedDept)).
Proof.
  intros (props & -> & Hname & _). unfold Js.deptMatches. simpl. now rewrite Hname.
Qed.

Lemma Js_hasDept_hospital (detectedDept : string) (v : Js.Value) (h : Hospital Js.Value) :
  isHospital v h ->
  Js.hasDept toLowerCase typeErrorMessage detectedDept v
  = Js.Normal (ChatService.hasDept toLowerCase detectedDept h).
Proof.
  intros (props & ds & -> & _ & _ & Hds & Hall). unfold Js.hasDept. simpl.
  rewrite Hds. simpl. unfold ChatService.hasDept.
  apply Js_someM_Forall2 with (R := isDepartment); [exact Hall|].
  intros x y. apply Js_deptMatches_department.
Qed.

Lemma Js_inLocations_hospital (locationsInMsg : list string) (v : Js.Value)
  (h : Hospital Js.Value) :
  isHospital v h ->
  Js.inLocations toLowerCase typeErrorMessage locationsInMsg v
  = Js.Normal (ChatService.inLocations toLowerCase locationsInMsg h).
Proof.
  intros (props & ds & -> & Hstate & Hlocation & _ & _).
  unfold Js.inLocations, ChatService.inLocations.
  apply Js_someM_pure. intros loc. simpl. rewrite Hstate. simpl.
  destruct (includes (toLowerCase (state h)) (toLowerCase loc)); simpl; [reflexivity|].
  rewrite Hlocation. reflexivity.
Qed.

Lemma Js_findM_department (detectedDept : string) (vs : list Js.Value)
  (ds : list (Department Js.Value)) :
  Forall2 isDepartment vs ds ->
  exists found,
    Js.findM (Js.deptMatches toLowerCase typeErrorMessage detectedDept) vs
    = Js.Normal found
    /\ (found = Js.Undefined \/ exists d, isDepartment found d).
Proof.
  intros H. induction H as [|v d vs ds Hvd _ (found & Hfound & Hcases)]; simpl.
  - exists Js.Undefined. split; [reflexivity | now left].
  - rewrite (Js_deptMatches_department detectedDept v d Hvd). simpl.
    destruct (includes _ _).
    + exists v. split; [reflexivity | right; now exists d].
    + exists found. split; assumption.
Qed.

Lemma Js_gatherDoctors_hospital (detectedDept : string) (v : Js.Value)
  (h : Hospital Js.Value) :
  isHospital v h ->
  Js.gatherDoctors toLowerCase gtZero typeErrorMessage detectedDept v = Js.Normal tt.
Proof.
  intros (props & ds & -> & _ & _ & Hds & Hall). unfold Js.gatherDoctors. simpl.
  rewrite Hds. simpl.
  destruct (Js_findM_department detectedDept ds (departments h) Hall)
    as (found & -> & [-> | (d & dprops & -> & _ & Hdocs)]); simpl; [reflexivity|].
  rewrite Hdocs. simpl.
  destruct (0 <? length (doctors d))%nat; simpl; [apply Js_forEachM_skip | reflexivity].
Qed.

Lemma Js_getField_state (v : Js.Value) (h : Hospital Js.Value) :
  isHospital v h -> getField v Js.Kstate = Js.Normal (Js.Str (state h)).
Proof. intros (props & ds & -> & Hs & _). simpl. now rewrite Hs. Qed.

Lemma Js_getField_location (v : Js.Value) (h : Hospital Js.Value) :
  isHospital v h -> getField v Js.Klocation = Js.Normal (Js.Str (location h)).
Proof. intros (props & ds & -> & _ & Hl & _). simpl. now rewrite Hl. Qed.

Lemma Js_addAliases_typed (hospitals : list (Hospital Js.Value)) (lowerMsg : string) :
  Js.addAliases lowerMsg
    (filter (fun loc => includes lowerMsg (toLowerCase loc))
            (ChatService.allLocations hospitals))
  = ChatService.detectLocations toLowerCase hospitals lowerMsg.
Proof. reflexivity. Qed.

Lemma Js_formulate_typed (detectedDept : option string) (locationsInMsg : list string)
  (items : list Js.Value) (hospitals : list (Hospital Js.Value)) :
  Forall2 isHospital items hospitals ->
  exists reply,
    Js.formulate toLowerCase gtZero typeErrorMessage detectedDept locationsInMsg items
    = Js.Normal reply
    /\ Js.sameReply reply
         match detectedDept with
         | Some dept =>
             if truthy dept then
               if (0 <? length (firstn 3 (ChatService.relevantHospitals
                                            toLowerCase hospitals dept locationsInMsg)))%nat
               then mkChatResponse (found_text dept locationsInMsg)
                      (Some (firstn 3 (ChatService.relevantHospitals
                                         toLowerCase hospitals dept locationsInMsg)))
                      None None
               else mkChatResponse (not_found_text dept) None None None
             else mkChatResponse FALLBACK_TEXT None None None
         | None => mkChatResponse FALLBACK_TEXT None None None
         end.
Proof.
  intros Hdir. unfold Js.formulate.
  destruct detectedDept as [dept|];
    [|eexists; split; [reflexivity | repeat split]].
  destruct (truthy dept); [|eexists; split; [reflexivity | repeat split]].
  destruct (Js_filterM_Forall2 _ _ isHospital
              (Js.hasDept toLowerCase typeErrorMessage dept)
              (ChatService.hasDept toLowerCase dept) items hospitals Hdir
              (Js_hasDept_hospital dept))
    as (byDept & -> & HbyDept).
  cbn [bind Js.Monad_Completion Js.andThen].
  assert (Hfinish : forall relevant typed,
             Forall2 isHospital relevant typed ->
             exists reply,
               Js.andThen
                 (Js.forEachM (Js.gatherDoctors toLowerCase gtZero typeErrorMessage dept)
                    relevant)
                 (fun _ =>
                    if (0 <? length (firstn 3 relevant))%nat
                    then Js.Normal (Js.mkReply (found_text dept locationsInMsg)
                                      (Some (firstn 3 relevant)) None None)
                    else Js.Normal (Js.mkReply (not_found_text dept) None None None))
               = Js.Normal reply
               /\ Js.sameReply reply
                    (if (0 <? length (firstn 3 typed))%nat
                     then mkChatResponse (found_text dept locationsInMsg)
                            (Some (firstn 3 typed)) None None
                     else mkChatResponse (not_found_text dept) None None None)).
  { intros relevant typed Hrelevant.
    rewrite (Js_forEachM_Forall2 _ _ isHospital _ _ _ Hrelevant
               (Js_gatherDoctors_hospital dept)).
    cbn [Js.andThen].
    pose proof (Forall2_firstn _ _ isHospital 3 _ _ Hrelevant) as Htop.
    rewrite (Forall2_length Htop).
    destruct (0 <? length (firstn 3 typed))%nat;
      eexists; (split; [reflexivity|]); repeat split. exact Htop. }
  unfold ChatService.relevantHospitals.
  destruct (0 <? length locationsInMsg)%nat.
  - destruct (Js_filterM_Forall2 _ _ isHospital
                (Js.inLocations toLowerCase typeErrorMessage locationsInMsg)
                (ChatService.inLocations toLowerCase locationsInMsg) byDept _ HbyDept
                (Js_inLocations_hospital locationsInMsg))
      as (relevant & -> & Hrelevant).
    cbn [bind Js.Monad_Completion Js.andThen].
    exact (Hfinish _ _ Hrelevant).
  - cbn [bind ret Js.Monad_Completion Js.andThen].
    exact (Hfinish _ _ HbyDept).
Qed.

Lemma Js_respond_typed (items : list Js.Value) (hospitals : list (Hospital Js.Value))
  (message : string) :
  Forall2 isHospital items hospitals ->
  exists reply,
    Js.respond toLowerCase gtZero typeErrorMessage (Js.Arr items) (Js.Str message)
    = Js.Normal reply
    /\ Js.sameReply reply (ChatService.respond toLowerCase hospitals message).
Proof.
  intros Hdir. unfold Js.respond, ChatService.respond.
  change (Js.callToLowerCase toLowerCase typeErrorMessage (Js.Str message))
    with (Js.Normal (toLowerCase message)).
  cbn [bind Js.Monad_Completion Js.andThen].
  destruct (ChatService.isEmergency (toLowerCase message)).
  { eexists. split; [reflexivity|]. repeat split. }
  cbn [Js.asArray bind Js.Monad_Completion Js.andThen].
  rewrite (Js_mapM_field Js.Kstate (@state Js.Value) items hospitals
             Js_getField_state Hdir).
  rewrite (Js_mapM_field Js.Klocation (@location Js.Value) items hospitals
             Js_getField_location Hdir).
  cbn [bind Js.Monad_Completion Js.andThen].
  rewrite <- map_app, Js_Set_of_strings, Js_collectLocations_strings.
  cbn [bind Js.Monad_Completion Js.andThen app].
  fold (ChatService.allLocations hospitals).
  rewrite Js_addAliases_typed.
  apply Js_formulate_typed, Hdir.
Qed.

Lemma Js_sendMessage_settles (MOCK_HOSPITALS message language : Js.Value) :
  Js.sendMessage toLowerCase gtZero typeErrorMessage MOCK_HOSPITALS message language
  = mkPromise 800
      match Js.respond toLowerCase gtZero typeErrorMessage MOCK_HOSPITALS message with
      | Js.Normal reply => Fulfilled reply
      | Js.Throw e => Rejected e
      end.
Proof.
  unfold Js.sendMessage.
  destruct (Js.respond toLowerCase gtZero typeErrorMessage MOCK_HOSPITALS message);
    reflexivity.
Qed.

(** The model has the implicit throws of the source. A message that is not
    a string rejects the promise at [message.toLowerCase()], whatever the
    directory. *)
Lemma Js_sendMessage_rejects_non_string (MOCK_HOSPITALS message language : Js.Value) :
  (forall s, message <> Js.Str s) ->
  Js.sendMessage toLowerCase gtZero typeErrorMessage MOCK_HOSPITALS message language
  = mkPromise 800 (Rejected (Js.TypeError typeErrorMessage message "toLowerCase")).
Proof.
  intros Hnot. rewrite Js_sendMessage_settles. unfold Js.respond.
  destruct message; try reflexivity. now destruct (Hnot s).
Qed.

(** A directory that is not an array rejects every non-emergency message at
    [MOCK_HOSPITALS.map]. *)
Lemma Js_sendMessage_rejects_non_array (MOCK_HOSPITALS language : Js.Value)
  (message : string) :
  (forall items, MOCK_HOSPITALS <> Js.Arr items) ->
  ChatService.isEmergency (toLowerCase message) = false ->
  Js.sendMessage toLowerCase gtZero typeErrorMessage MOCK_HOSPITALS (Js.Str message)
    language
  = mkPromise 800 (Rejected (Js.TypeError typeErrorMessage MOCK_HOSPITALS "map")).
Proof.
  intros Hnot He. rewrite Js_sendMessage_settles. unfold Js.respond.
  change (Js.callToLowerCase toLowerCase typeErrorMessage (Js.Str message))
    with (Js.Normal (toLowerCase message)).
  cbn [bind Js.Monad_Completion Js.andThen]. rewrite He.
  destruct MOCK_HOSPITALS; try reflexivity. now destruct (Hnot items).
Qed.

(** C7. For every message text, every language argument and every
    directory whose entries are hospitals as types.ts declares them, the
    promise of the responder is fulfilled with a reply after the one 800 ms
    timer and is never rejected: none of the property reads and method calls
    of the body throws. The reply is the one of the typed responder. *)
Theorem responder_fulfils_on_typed_input
  (items : list Js.Value) (hospitals : list (Hospital Js.Value))
  (message : string) (language : Js.Value) :
  Forall2 (@Js.isHospital) items hospitals ->
  exists reply,
    Js.sendMessage toLowerCase gtZero typeErrorMessage (Js.Arr items) (Js.Str message)
      language
    = mkPromise 800 (Fulfilled reply)
    /\ (forall e,
          settled (Js.sendMessage toLowerCase gtZero typeErrorMessage (Js.Arr items)
                     (Js.Str message) language)
          <> Rejected e)
    /\ forall typedLanguage,
         exists response,
           ChatService.sendMessage toLowerCase hospitals message typedLanguage
           = mkPromise 800 (Fulfilled response)
           /\ Js.sameReply reply response.
Proof.
  intros Hdir.
  destruct (Js_respond_typed items hospitals message Hdir) as (reply & Hreply & Hsame).
  exists reply. rewrite Js_sendMessage_settles, Hreply.
  split; [reflexivity | split; [discriminate|]].
  intros typedLanguage. exists (ChatService.respond toLowerCase hospitals message).
  split; [apply sendMessage_settles | exact Hsame].
Qed.

End JsResponder.

Example Js_missing_departments_rejects :
  sampleJsSendMessage
    (Js.Arr [Js.Obj [("state", Js.Str "Delhi"); ("location", Js.Str "Saket")]])
    (Js.Str "skin rash")
  = mkPromise 800 (Rejected (ErrorObject "some")).
Proof. reflexivity. Qed.

Example Js_missing_doctors_rejects :
  sampleJsSendMessage
    (Js.Arr [Js.Obj [("state", Js.Str "Delhi"); ("location", Js.Str "Saket");
                     ("departments", Js.Arr [Js.Obj [("name", Js.Str "Dermatology")]])]])
    (Js.Str "skin rash")
  = mkPromise 800 (Rejected (ErrorObject "length")).
Proof. reflexivity. Qed.

Example Js_undefined_message_rejects :
  sampleJsSendMessage (Js.Arr sampleJsDirectory) Js.Undefined
  = mkPromise 800 (Rejected (ErrorObject "toLowerCase")).
Proof. reflexivity. Qed.

Lemma sampleJsDirectory_typed : Forall2 (@Js.isHospital) sampleJsDirectory sampleJsHospitals.
Proof.
  repeat constructor;
    eexists; eexists; (split; [reflexivity|]);
    repeat (split; [reflexivity|]);
    repeat constructor; eexists; repeat (split; [reflexivity|]); reflexivity.
Qed.

Lemma responder_fulfils_on_typed_input_witness :
  exists reply,
    sampleJsSendMessage (Js.Arr sampleJsDirectory) (Js.Str "Skin rash in Delhi")
    = mkPromise 800 (Fulfilled reply)
    /\ Js.reply_hospitals reply = Some (firstn 1 sampleJsDirectory).
Proof.
  destruct (responder_fulfils_on_typed_input toLowerCase_ascii (fun _ => false)
              (fun _ member => member) sampleJsDirectory sampleJsHospitals
              "Skin rash in Delhi" Js.Undefined sampleJsDirectory_typed)
    as (reply & Hsettled & _).
  exists reply. split; [exact Hsettled|].
  vm_compute in Hsettled. injection Hsettled as <-. reflexivity.
Defined.

(** ** The further properties on concrete inputs *)

Lemma suggestions_between_one_and_three_from_directory_witness :
  (1 <= length (firstn 3 sampleHospitals) <= 3)%nat
  /\ action (sampleRespond "Heart trouble") = None.
Proof.
  destruct (suggestions_between_one_and_three_from_directory string toLowerCase_ascii
              sampleHospitals "Heart trouble" None (sampleRespond "Heart trouble")
              (firstn 3 sampleHospitals))
    as (Hlen & Haction & _).
  - reflexivity.
  - reflexivity.
  - split; [exact Hlen | exact Haction].
Defined.

Lemma naming_a_hospital_place_yields_suggestions_witness :
  In "Delhi" (ChatService.detectLocations toLowerCase_ascii sampleHospitals
                (toLowerCase_ascii "Skin rash in Delhi"))
  /\ firstn 3 (ChatService.relevantHospitals toLowerCase_ascii sampleHospitals "Dermatology"
                 (ChatService.detectLocations toLowerCase_ascii sampleHospitals
                    (toLowerCase_ascii "Skin rash in Delhi"))) <> [].
Proof.
  destruct (naming_a_hospital_place_yields_suggestions string toLowerCase_ascii
              sampleHospitals "Skin rash in Delhi" "Dermatology"
              (mkHospital "AIIMS" "Ansari Nagar" "Delhi" Government "8 AM - 2 PM"
                 [dept "Cardiology" ["Dr. Rao"]; dept "Dermatology" []])
              "Delhi")
    as (Hloc & _ & _ & Hne).
  - apply absent_keywords. vm_compute. reflexivity.
  - reflexivity.
  - left. reflexivity.
  - reflexivity.
  - left. reflexivity.
  - exists "skin rash in ", "". reflexivity.
  - split; [exact Hloc | exact Hne].
Defined.

Lemma location_filter_only_narrows_witness :
  let aiims :=
    mkHospital "AIIMS" "Ansari Nagar" "Delhi" Government "8 AM - 2 PM"
      [dept "Cardiology" ["Dr. Rao"]; dept "Dermatology" []] in
  In aiims (ChatService.relevantHospitals toLowerCase_ascii sampleHospitals "Cardiology"
              ["Delhi"; "Maharashtra"])
  /\ In aiims (ChatService.relevantHospitals toLowerCase_ascii sampleHospitals "Cardiology" []).
Proof.
  apply (location_filter_only_narrows string toLowerCase_ascii sampleHospitals
           "Cardiology" ["Delhi"] ["Delhi"; "Maharashtra"]).
  - intros loc [<- | []]. left. reflexivity.
  - discriminate.
  - left. reflexivity.
Defined.

Lemma empty_directory_never_suggests_witness :
  ChatService.respond toLowerCase_ascii (@nil (Hospital string)) "cough in Delhi"
  = mkChatResponse (not_found_text "Pulmonology") None None None.
Proof.
  destruct (empty_directory_never_suggests string toLowerCase_ascii "cough in Delhi")
    as (_ & _ & Hdept).
  apply Hdept; reflexivity.
Defined.

Lemma empty_message_gets_fallback_witness :
  ChatService.sendMessage toLowerCase_ascii sampleHospitals "" None =
  mkPromise 800 (Fulfilled (mkChatResponse FALLBACK_TEXT None None None)).
Proof.
  apply (empty_message_gets_fallback string toLowerCase_ascii sampleHospitals None).
  reflexivity.
Defined.

Lemma empty_directory_value_matches_everything_witness :
  let clinic := mkHospital "Village Clinic" "" "Goa" Private "9 AM - 1 PM" [dept "ENT" []] in
  let directory := sampleHospitals ++ [clinic] in
  In "" (ChatService.detectLocations toLowerCase_ascii directory "sore throat in delhi")
  /\ ChatService.relevantHospitals toLowerCase_ascii directory "ENT"
       (ChatService.detectLocations toLowerCase_ascii directory "sore throat in delhi")
     = filter (ChatService.hasDept toLowerCase_ascii "ENT") directory.
Proof.
  intros clinic directory.
  destruct (empty_directory_value_matches_everything string toLowerCase_ascii directory
              clinic "sore throat in delhi" "ENT")
    as (Hloc & _ & Hrel).
  - reflexivity.
  - apply in_or_app. right. left. reflexivity.
  - right. reflexivity.
  - split; [exact Hloc | exact Hrel].
Defined.

Lemma messages_only_grow_without_reset_witness :
  exists suffix,
    messages
      (useMedicalChat.run
         [useMedicalChat.Submit string "cough"; useMedicalChat.Settle (Rejected OtherValue);
          useMedicalChat.ClearError string;
          useMedicalChat.Settle (Fulfilled (sampleRespond "cough"))]
         erroredState)
    = messages erroredState ++ suffix
    /\ length suffix = 2%nat.
Proof.
  apply (messages_only_grow_without_reset string
           [useMedicalChat.Submit string "cough"; useMedicalChat.Settle (Rejected OtherValue);
            useMedicalChat.ClearError string;
            useMedicalChat.Settle (Fulfilled (sampleRespond "cough"))]
           erroredState).
  reflexivity.
Defined.

Lemma handleSend_sends_exactly_when_button_enabled_witness :
  ChatInput.buttonDisabled trim_ascii "   " false = true
  /\ ChatInput.handleSend trim_ascii "   " false = (None, "   ").
Proof.
  destruct (handleSend_sends_exactly_when_button_enabled trim_ascii "   " false)
    as (Hiff & _).
  split; [apply Hiff; reflexivity | reflexivity].
Defined.

Lemma fulfilled_settlement_appends_reply_after_user_message_witness :
  let final :=
    useMedicalChat.run
      [useMedicalChat.Submit string "I have chest pain";
       useMedicalChat.Submit string "cough";
       useMedicalChat.Settle (Rejected OtherValue);
       useMedicalChat.Settle (Fulfilled (sampleRespond "I have chest pain"))]
      erroredState in
  isLoading final = false /\ error final = Some GENERIC_ERROR.
Proof.
  intros final.
  destruct (fulfilled_settlement_appends_reply_after_user_message string erroredState
              "I have chest pain"
              [useMedicalChat.Submit string "cough";
               useMedicalChat.Settle (Rejected OtherValue)]
              (sampleRespond "I have chest pain"))
    as (_ & Hloading & Herror & _).
  - reflexivity.
  - split; [exact Hloading|]. exact (eq_trans Herror eq_refl).
Defined.

Lemma error_banner_after_rejection_witness :
  let p := failingPageRun (ErrorObject "")
             [DoctorBotPage.Change "fever"; DoctorBotPage.Render;
              DoctorBotPage.ClickSend] in
  let p' := DoctorBotPage.step trim_ascii (failingService (ErrorObject "")) p
              (DoctorBotPage.PromiseSettles 0) in
  error (DoctorBotPage.chat p') = Some ""
  /\ DoctorBotPage.errorBanner p' = None.
Proof.
  intros p p'.
  destruct (error_banner_after_rejection string trim_ascii
              (failingService (ErrorObject "")) p 0 "fever" "en" (ErrorObject ""))
    as (Herr & _ & Hbanner).
  - reflexivity.
  - reflexivity.
  - split; [exact Herr | exact Hbanner].
Defined.

Lemma page_serializes_submissions_between_renders_witness :
  DoctorBotPage.pending
    (samplePageRun
       (Trace.withRenders
          [DoctorBotPage.Change "fever"; DoctorBotPage.KeyDown "Enter" false;
           DoctorBotPage.KeyDown "Enter" false]))
  = [("fever", "en")]
  /\ DoctorBotPage.pending
       (samplePageRun
          [DoctorBotPage.Change "fever"; DoctorBotPage.Render;
           DoctorBotPage.KeyDown "Enter" false; DoctorBotPage.KeyDown "Enter" false])
     = [("fever", "en"); ("fever", "en")].
Proof.
  split; [reflexivity|].
  destruct (page_serializes_submissions_between_renders string trim_ascii sampleService [])
    as (_ & _ & Hrace).
  exact (Hrace "fever" eq_refl).
Defined.

Lemma page_user_messages_are_trimmed_typed_text_witness :
  truthy "skin rash in Delhi" = true
  /\ exists typed,
       In (DoctorBotPage.Change typed)
          [DoctorBotPage.Change "  skin rash in Delhi  "; DoctorBotPage.Render;
           DoctorBotPage.KeyDown "Enter" false; DoctorBotPage.PromiseSettles 0]
       /\ "skin rash in Delhi" = trim_ascii typed.
Proof.
  destruct (page_user_messages_are_trimmed_typed_text string trim_ascii sampleService
              eq_refl
              [DoctorBotPage.Change "  skin rash in Delhi  "; DoctorBotPage.Render;
               DoctorBotPage.KeyDown "Enter" false; DoctorBotPage.PromiseSettles 0]
              (mkMessage user "skin rash in Delhi" None))
    as (Htruthy & _ & Htyped).
  - left. reflexivity.
  - reflexivity.
  - split; [exact Htruthy | exact Htyped].
Defined.

Lemma page_cards_come_from_directory_witness :
  let reply := sampleRespond "skin rash in Delhi" in
  let msg := mkMessage assistant (text reply) (suggestedHospitals reply) in
  (length (ChatMessage.cards msg) <= 3)%nat
  /\ ChatMessage.cards msg <> []
  /\ forall h, In h (ChatMessage.cards msg) -> In h sampleHospitals.
Proof.
  intros reply msg.
  destruct (page_cards_come_from_directory string trim_ascii toLowerCase_ascii
              sampleHospitals
              [DoctorBotPage.Change "  skin rash in Delhi  "; DoctorBotPage.Render;
               DoctorBotPage.KeyDown "Enter" false; DoctorBotPage.PromiseSettles 0]
              msg)
    as (Hlen & Hsome & Hdir).
  - right. left. reflexivity.
  - split; [exact Hlen | split; [apply Hsome; discriminate|]].
    intros h Hh. exact (proj1 (Hdir h Hh)).
Defined.

Lemma page_language_selection_does_not_change_chat_witness :
  DoctorBotPage.chat
    (samplePageRun
       [DoctorBotPage.SelectLanguage "hi"; DoctorBotPage.Change "cough";
        DoctorBotPage.Render; DoctorBotPage.ClickSend;
        DoctorBotPage.SelectLanguage "hinglish"; DoctorBotPage.PromiseSettles 0])
  = DoctorBotPage.chat
      (samplePageRun
         [DoctorBotPage.Change "cough"; DoctorBotPage.Render; DoctorBotPage.ClickSend;
          DoctorBotPage.PromiseSettles 0]).
Proof.
  destruct (page_language_selection_does_not_change_chat string trim_ascii sampleService
              (fun userMessage l1 l2 => eq_refl)
              [DoctorBotPage.SelectLanguage "hi"; DoctorBotPage.Change "cough";
               DoctorBotPage.Render; DoctorBotPage.ClickSend;
               DoctorBotPage.SelectLanguage "hinglish"; DoctorBotPage.PromiseSettles 0])
    as (Hchat & _).
  exact Hchat.
Defined.

Lemma page_alternates_user_and_assistant_between_renders_witness :
  let p := samplePageRun
             (Trace.withRenders
                [DoctorBotPage.Change "cough"; DoctorBotPage.ClickSend;
                 DoctorBotPage.PromiseSettles 0; DoctorBotPage.Change "fever";
                 DoctorBotPage.KeyDown "Enter" false]) in
  (exists n, map (@role string) (messages (DoctorBotPage.chat p)) =
             Trace.turns n ++ (if isLoading (DoctorBotPage.chat p) then [user] else []))
  /\ DoctorBotPage.showsTyping p = isLoading (DoctorBotPage.chat p).
Proof.
  apply (page_alternates_user_and_assistant_between_renders string trim_ascii
           sampleService).
  - intros userMessage lang. eexists. reflexivity.
  - reflexivity.
Defined.
